(** * Application-service client (synapse/appservice/api.py)

    A shallow embedding of [ApplicationServiceApi] and of the two result
    validators of the module, followed by the properties its specification
    states about them.

    Python values are embedded as follows.
    - JSON documents (the untyped values [get_json] and friends hand back):
      the inductive [json]; a [dict] is a finite map with string keys, so that
      two dicts with the same entries are equal, as in Python.
    - [raise]/[try ... except]: every operation is a computation in the monad
      [M], which threads the observable state of the process ([world]) and
      ends in [Returned v] or in [Raised e].
    - [await self.get_json(...)] and the other transport calls: the request is
      appended to the trace [requests] and its outcome is whatever the
      environment [reply] answers, a decoded body or an exception.
    - the [ResponseCache] behind [get_3pe_protocol] is not part of this
      module; it is modelled from its contract (section 4.1 of the
      specification) as a map from keys to pending or completed entries. *)

From Stdlib Require Import ZArith String.
From stdpp Require Import gmap strings list fin_maps.

Set Warnings "-register-all".
Local Open Scope Z_scope.

(** ** JSON documents *)

Inductive json :=
  | JNull                                   (* None *)
  | JBool (b : bool)
  | JInt (n : Z)
  | JFloat (mantissa exponent : Z)
  | JStr (s : string)
  | JList (l : list json)
  | JObj (m : gmap string json).

(** [x is None] *)
Definition is_None (x : json) : bool :=
  match x with JNull => true | _ => false end.

(** [isinstance(x, str)], [isinstance(x, list)], [isinstance(x, dict)] *)
Definition isinstance_str (x : json) : bool :=
  match x with JStr _ => true | _ => false end.
Definition isinstance_list (x : json) : bool :=
  match x with JList _ => true | _ => false end.
Definition isinstance_dict (x : json) : bool :=
  match x with JObj _ => true | _ => false end.

(** ** Exceptions and results *)

(** The exceptions that occur, all subclasses of [Exception].  An
    [AssertionError] carries the message of its [assert], empty for a bare
    one; [OtherException] stands for any class the transport raises apart
    from [CodeMessageException]. *)
Inductive exn :=
  | CodeMessageException (code : Z) (msg : string)
  | AssertionError (msg : string)
  | ValueError (msg : string)
  | AttributeError
  | TypeError
  | KeyError (key : string)
  | OtherException (cls : string).

Inductive result (A : Type) :=
  | Returned (a : A)
  | Raised (e : exn).
Arguments Returned {A} a.
Arguments Raised {A} e.

(** ** Python's container protocol on JSON values *)

(** [needle in haystack] for two [str]: substring test. *)
Fixpoint is_substring (needle haystack : string) : bool :=
  if String.prefix needle haystack then true
  else match haystack with
       | EmptyString => false
       | String _ rest => is_substring needle rest
       end.

(** [k in x] for a string [k]: key membership for a dict, element equality
    for a list, substring for a string; the other JSON values are not
    iterable. *)
Definition py_contains (k : string) (x : json) : result bool :=
  match x with
  | JObj m => Returned (bool_decide (is_Some (m !! k)))
  | JList l =>
      Returned (existsb (λ y, match y with JStr t => String.eqb k t | _ => false end) l)
  | JStr t => Returned (is_substring k t)
  | _ => Raised TypeError
  end.

(** [x[k]] for a string [k]. *)
Definition py_getitem (x : json) (k : string) : result json :=
  match x with
  | JObj m => match m !! k with
              | Some v => Returned v
              | None => Raised (KeyError k)
              end
  | _ => Raised TypeError
  end.

(** [x.get(k, dflt)]: only dicts have the method. *)
Definition py_get (x : json) (k : string) (dflt : json) : result json :=
  match x with
  | JObj m => Returned (default dflt (m !! k))
  | _ => Raised AttributeError
  end.

(** ** Result validators *)

Definition _is_valid_3pe_metadata (info : json) : result bool :=
  match py_contains "instances" info with
  | Raised e => Raised e
  | Returned false => Returned false
  | Returned true =>
      match py_getitem info "instances" with
      | Raised e => Raised e
      | Returned v => Returned (isinstance_list v)
      end
  end.

(** The loop over [(field, "protocol")] of [_is_valid_3pe_result]: [None]
    when the loop runs to its end, [Some false] when it returns early. *)
Fixpoint check_str_fields (r : gmap string json) (ks : list string) : option bool :=
  match ks with
  | [] => None
  | k :: ks' =>
      match r !! k with
      | None => Some false
      | Some v => if isinstance_str v then check_str_fields r ks' else Some false
      end
  end.

Definition _is_valid_3pe_result (r : json) (field : string) : bool :=
  match r with
  | JObj m =>
      match check_str_fields m [field; "protocol"] with
      | Some b => b
      | None =>
          match m !! "fields" with
          | None => false
          | Some fields => isinstance_dict fields
          end
      end
  | _ => false
  end.

(** ** Services, requests and the state of the process *)

Record service := {
  id : string;
  url : option string;
  hs_token : option string;
  supports_ephemeral : bool;
  msc3202_transaction_extensions : bool;
  is_interested_in_user : string → bool;
}.

Inductive http_method := GET | POST | PUT.

(** A query-string argument is a string or a list of strings. *)
Inductive arg_value :=
  | ArgStr (s : string)
  | ArgList (l : list string).

Record request := {
  method : http_method;
  uri : string;
  args : gmap string arg_value;
  json_body : option json;
  headers : gmap string (list string);
}.

(** What the transport does with a request: a decoded JSON body on a 2xx
    answer, a [CodeMessageException] on another status, or some other
    exception (time-out, refused connection, undecodable body, ...). *)
Inductive http_error :=
  | HttpStatus (code : Z) (msg : string)
  | TransportFailure (cls : string).

Inductive http_outcome :=
  | HttpOk (body : json)
  | HttpErr (e : http_error).

Definition exn_of (e : http_error) : exn :=
  match e with
  | HttpStatus code msg => CodeMessageException code msg
  | TransportFailure cls => OtherException cls
  end.

(** One [logger.warning] call: its format string and the URI argument. *)
Record log_entry := { template : string; about : string }.

(** A key-claim query: [(user_id, device, algorithm)]. *)
Definition claim : Type := string * string * string.

(** Modelled from the spec: [ResponseCache] (synapse/util/caches) is not in
    this module.  An entry of its map is a call in flight, with what the
    suspended [_get] closure holds (its service and the URI it computed) and
    the callers waiting for it, or a stored result with its expiry
    timestamp. *)
Inductive cache_entry :=
  | Pending (owner : service) (uri : string) (waiters : list nat)
  | Completed (v : option json) (expiry : Z).

(** The five Prometheus counters, each labelled by service id. *)
Record counters := {
  sent_transactions_counter : gmap string Z;
  failed_transactions_counter : gmap string Z;
  sent_events_counter : gmap string Z;
  sent_ephemeral_counter : gmap string Z;
  sent_todevice_counter : gmap string Z;
}.

Record world := {
  requests : list request;          (* HTTP calls issued, oldest first *)
  warnings : list log_entry;        (* logger.warning calls, oldest first *)
  now : Z;                          (* clock.time_msec() *)
  lists : list (list claim);        (* the list objects holding queries *)
  protocol_meta_cache : gmap (string * string) cache_entry;
  metrics : counters;
}.

Definition with_requests (f : list request → list request) (w : world) : world :=
  {| requests := f (requests w); warnings := warnings w; now := now w;
     lists := lists w; protocol_meta_cache := protocol_meta_cache w;
     metrics := metrics w |}.
Definition with_warnings (f : list log_entry → list log_entry) (w : world) : world :=
  {| requests := requests w; warnings := f (warnings w); now := now w;
     lists := lists w; protocol_meta_cache := protocol_meta_cache w;
     metrics := metrics w |}.
Definition with_now (f : Z → Z) (w : world) : world :=
  {| requests := requests w; warnings := warnings w; now := f (now w);
     lists := lists w; protocol_meta_cache := protocol_meta_cache w;
     metrics := metrics w |}.
Definition with_lists (f : list (list claim) → list (list claim)) (w : world) : world :=
  {| requests := requests w; warnings := warnings w; now := now w;
     lists := f (lists w); protocol_meta_cache := protocol_meta_cache w;
     metrics := metrics w |}.
Definition with_cache
    (f : gmap (string * string) cache_entry → gmap (string * string) cache_entry)
    (w : world) : world :=
  {| requests := requests w; warnings := warnings w; now := now w;
     lists := lists w; protocol_meta_cache := f (protocol_meta_cache w);
     metrics := metrics w |}.
Definition with_metrics (f : counters → counters) (w : world) : world :=
  {| requests := requests w; warnings := warnings w; now := now w;
     lists := lists w; protocol_meta_cache := protocol_meta_cache w;
     metrics := f (metrics w) |}.

(** [counter.labels(label).inc(n)] *)
Definition inc (label : string) (n : Z) (c : gmap string Z) : gmap string Z :=
  <[label := default 0 (c !! label) + n]> c.

(** ** The monad of operations *)

Definition M (A : Type) : Type := world → result A * world.

Definition ret {A} (a : A) : M A := λ w, (Returned a, w).
Definition raise {A} (e : exn) : M A := λ w, (Raised e, w).
Definition bind {A B} (m : M A) (k : A → M B) : M B :=
  λ w, match m w with
       | (Returned a, w') => k a w'
       | (Raised e, w') => (Raised e, w')
       end.

Notation "'let*' x := m 'in' k" := (bind m (λ x, k))
  (at level 10, x pattern, m at level 100, k at level 200,
   format "'[v' 'let*'  x  :=  m  'in'  '/' k ']'").
Notation "m ;; k" := (bind m (λ _, k))
  (at level 100, k at level 200, right associativity,
   format "'[v' m  ;;  '/' k ']'").

(** [try: body except Exception as e: handler e].  Every exception of the
    model derives from [Exception], so the handler sees all of them; a
    handler for [CodeMessageException] followed by one for [Exception] is a
    [match] on [e]. *)
Definition try_except {A} (body : M A) (handler : exn → M A) : M A :=
  λ w, match body w with
       | (Returned a, w') => (Returned a, w')
       | (Raised e, w') => handler e w'
       end.

Definition warning (fmt about_uri : string) : M unit :=
  λ w, (Returned (), with_warnings (λ l, l ++ [{| template := fmt; about := about_uri |}]) w).

Definition time_msec : M Z := λ w, (Returned (now w), w).

(** [assert service.hs_token is not None], and the exception of its
    failure. *)
Definition no_hs_token : exn := AssertionError "".

Definition assert_hs_token (s : service) : M string :=
  match hs_token s with
  | Some tok => ret tok
  | None => raise no_hs_token
  end.

(** The [Authorization] header every call carries. *)
Definition bearer (tok : string) : gmap string (list string) :=
  {[ "Authorization" := ["Bearer " +:+ tok] ]}.

Definition APP_SERVICE_PREFIX : string := "/_matrix/app/unstable".
Definition HOUR_IN_MS : Z := 60 * 60 * 1000.

(** Modelled from the spec: [ThirdPartyEntityKind] (synapse.api.constants)
    is not in this module; its two kinds are the strings ["user"] and
    ["location"]. *)
Definition USER : string := "user".
Definition LOCATION : string := "location".

(** ** The operations of [ApplicationServiceApi] *)

Section Api.

(** [urllib.parse.quote] *)
Variable quote : string → string.

(** The environment: what the application service answers to a request. *)
Variable reply : request → http_outcome.

(** Put [req] on the wire. *)
Definition issue (req : request) : M unit :=
  λ w, (Returned (), with_requests (λ l, l ++ [req]) w).

(** What an [await] of a transport call evaluates to once its outcome is
    known. *)
Definition outcome (o : http_outcome) : M json :=
  match o with
  | HttpOk body => ret body
  | HttpErr e => raise (exn_of e)
  end.

(** Issue [req] and wait for its outcome. *)
Definition send (req : request) : M json :=
  issue req ;; outcome (reply req).

Definition get_json (u : string) (a : gmap string arg_value)
    (h : gmap string (list string)) : M json :=
  send {| method := GET; uri := u; args := a; json_body := None; headers := h |}.

Definition post_json_get_json (u : string) (post_json : json)
    (h : gmap string (list string)) : M json :=
  send {| method := POST; uri := u; args := ∅; json_body := Some post_json;
          headers := h |}.

Definition put_json (u : string) (body : json) (a : gmap string arg_value)
    (h : gmap string (list string)) : M json :=
  send {| method := PUT; uri := u; args := a; json_body := Some body;
          headers := h |}.

(** In [query_user] and [query_alias] the [try] statement either returns
    (here [Some b]) or falls through to the final [return False] ([None]). *)
Definition query_user (s : service) (user_id : string) : M bool :=
  match url s with
  | None => ret false
  | Some base =>
      let* tok := assert_hs_token s in
      let uri := base +:+ "/users/" +:+ quote user_id in
      let* early :=
        try_except
          (let* response :=
             get_json uri {[ "access_token" := ArgStr tok ]} (bearer tok) in
           if is_None response then ret None else ret (Some true))
          (λ e, match e with
                | CodeMessageException code _ =>
                    if code =? 404 then ret (Some false)
                    else (warning "query_user to %s received %s" uri ;; ret None)
                | _ =>
                    warning "query_user to %s threw exception %s" uri ;; ret None
                end) in
      match early with
      | Some b => ret b
      | None => ret false
      end
  end.

Definition query_alias (s : service) (alias : string) : M bool :=
  match url s with
  | None => ret false
  | Some base =>
      let* tok := assert_hs_token s in
      let uri := base +:+ "/rooms/" +:+ quote alias in
      let* early :=
        try_except
          (let* response :=
             get_json uri {[ "access_token" := ArgStr tok ]} (bearer tok) in
           if is_None response then ret None else ret (Some true))
          (λ e, match e with
                | CodeMessageException code _ =>
                    warning "query_alias to %s received %s" uri ;;
                    if code =? 404 then ret (Some false) else ret None
                | _ =>
                    warning "query_alias to %s threw exception %s" uri ;; ret None
                end) in
      match early with
      | Some b => ret b
      | None => ret false
      end
  end.

(** The loop of [query_3pe] over the response list; [acc] is [ret]. *)
Fixpoint collect_3pe (uri field : string) (response acc : list json) : M (list json) :=
  match response with
  | [] => ret acc
  | r :: rest =>
      if _is_valid_3pe_result r field then collect_3pe uri field rest (acc ++ [r])
      else (warning "query_3pe to %s returned an invalid result %r" uri ;;
            collect_3pe uri field rest acc)
  end.

Definition query_3pe (s : service) (kind protocol : string)
    (fields : gmap string (list string)) : M (list json) :=
  let* required_field :=
    (if String.eqb kind USER then ret "userid"
     else if String.eqb kind LOCATION then ret "alias"
     else raise (ValueError "Unrecognised 'kind' argument %r to query_3pe()")) in
  match url s with
  | None => ret []
  | Some base =>
      let* tok := assert_hs_token s in
      let uri := base +:+ APP_SERVICE_PREFIX +:+ "/thirdparty/" +:+ kind +:+ "/"
                 +:+ quote protocol in
      try_except
        (let a := <["access_token" := ArgStr tok]> (ArgList <$> fields) in
         let* response := get_json uri a (bearer tok) in
         match response with
         | JList l => collect_3pe uri required_field l []
         | _ =>
             warning "query_3pe to %s returned an invalid response %r" uri ;;
             ret []
         end)
        (λ ex, warning "query_3pe to %s threw exception %s" uri ;; ret [])
  end.

(** [ping]: nothing is caught. *)
Definition ping (s : service) (txn_id : option string) : M unit :=
  match url s with
  | None => raise (AssertionError "ping called without URL being set")
  | Some base =>
      let* tok := assert_hs_token s in
      post_json_get_json
        (base +:+ "/_matrix/app/unstable/fi.mau.msc2659/ping")
        (JObj {[ "transaction_id" := from_option JStr JNull txn_id ]})
        (bearer tok) ;;
      ret ()
  end.

(** *** push_bulk *)

(** The parts of an [EventBase] this module reads. *)
Record EventBase := {
  type : string;
  membership : string;
  state_key : string;
  content : json;
}.

Record SerializeEventConfig := {
  as_client_event : bool;
  include_stripped_room_state : bool;
}.

(** Modelled from the spec: [EventTypes.Member], [Membership.INVITE] and
    [Membership.KNOCK] (synapse.api.constants) are not in this module; they
    are the room-membership event type and the membership states [invite]
    and [knock]. *)
Definition Member : string := "m.room.member".
Definition INVITE : string := "invite".
Definition KNOCK : string := "knock".

(** [synapse.events.utils.serialize_event] and [str] on integers. *)
Variable serialize_event : EventBase → Z → SerializeEventConfig → json.
Variable str_of_int : Z → string.

(** [DeviceListUpdates] (synapse.types) is not in this module: two
    collections of user ids, taken to be falsy exactly when both are
    empty. *)
Record DeviceListUpdates := {
  changed : list string;
  left : list string;
}.

Definition truthy_device_lists (d : DeviceListUpdates) : bool :=
  negb (bool_decide (changed d = [])) || negb (bool_decide (left d = [])).

(** Truth value of a dict. *)
Definition truthy_dict (d : gmap string json) : bool :=
  negb (bool_decide (d = ∅)).

Definition _serialize (s : service) (events : list EventBase) : M (list json) :=
  let* time_now := time_msec in
  ret (map
         (λ e, serialize_event e time_now
                 {| as_client_event := true;
                    include_stripped_room_state :=
                      String.eqb (type e) Member
                      && (String.eqb (membership e) INVITE
                          || String.eqb (membership e) KNOCK)
                      && is_interested_in_user s (state_key e) |})
         events).

(** The dict [body] that [push_bulk] builds before the [try]. *)
Definition transaction_body (s : service) (serialized_events ephemeral
    to_device_messages : list json)
    (one_time_keys_count unused_fallback_keys : gmap string json)
    (device_list_summary : DeviceListUpdates) : gmap string json :=
  let body : gmap string json := {[ "events" := JList serialized_events ]} in
  let body :=
    if supports_ephemeral s then
      <["de.sorunome.msc2409.to_device" := JList to_device_messages]>
        (<["de.sorunome.msc2409.ephemeral" := JList ephemeral]> body)
    else body in
  if msc3202_transaction_extensions s then
    let body :=
      if truthy_dict one_time_keys_count then
        <["org.matrix.msc3202.device_one_time_keys_count" := JObj one_time_keys_count]>
          (<["org.matrix.msc3202.device_one_time_key_counts" := JObj one_time_keys_count]>
             body)
      else body in
    let body :=
      if truthy_dict unused_fallback_keys then
        <["org.matrix.msc3202.device_unused_fallback_key_types" := JObj unused_fallback_keys]>
          body
      else body in
    if truthy_device_lists device_list_summary then
      <["org.matrix.msc3202.device_lists" :=
          JObj {[ "changed" := JList (JStr <$> changed device_list_summary);
                  "left" := JList (JStr <$> left device_list_summary) ]}]> body
    else body
  else body.

Definition count (f : counters → counters) : M unit :=
  λ w, (Returned (), with_metrics f w).

Definition inc_sent (label : string) (events ephemeral todevice : Z) (c : counters) :
    counters :=
  {| sent_transactions_counter := inc label 1 (sent_transactions_counter c);
     failed_transactions_counter := failed_transactions_counter c;
     sent_events_counter := inc label events (sent_events_counter c);
     sent_ephemeral_counter := inc label ephemeral (sent_ephemeral_counter c);
     sent_todevice_counter := inc label todevice (sent_todevice_counter c) |}.

Definition inc_failed (label : string) (c : counters) : counters :=
  {| sent_transactions_counter := sent_transactions_counter c;
     failed_transactions_counter := inc label 1 (failed_transactions_counter c);
     sent_events_counter := sent_events_counter c;
     sent_ephemeral_counter := sent_ephemeral_counter c;
     sent_todevice_counter := sent_todevice_counter c |}.

(** Debug-level logging is left out: it changes neither the request nor the
    result. *)
Definition push_bulk (s : service) (events : list EventBase)
    (ephemeral to_device_messages : list json)
    (one_time_keys_count unused_fallback_keys : gmap string json)
    (device_list_summary : DeviceListUpdates) (txn_id : option Z) : M bool :=
  match url s with
  | None => ret true
  | Some base =>
      let* tok := assert_hs_token s in
      let* serialized_events := _serialize s events in
      let* txn_id :=
        match txn_id with
        | Some t => ret t
        | None =>
            warning "push_bulk: Missing txn ID sending events to %s" base ;;
            ret 0
        end in
      let uri := base +:+ "/transactions/" +:+ quote (str_of_int txn_id) in
      let body :=
        transaction_body s serialized_events ephemeral to_device_messages
          one_time_keys_count unused_fallback_keys device_list_summary in
      let* early :=
        try_except
          (put_json uri (JObj body) {[ "access_token" := ArgStr tok ]} (bearer tok) ;;
           count (inc_sent (id s) (Z.of_nat (length serialized_events))
                    (Z.of_nat (length ephemeral))
                    (Z.of_nat (length to_device_messages))) ;;
           ret (Some true))
          (λ e, match e with
                | CodeMessageException _ _ =>
                    warning "push_bulk to %s received code=%s msg=%s" uri ;; ret None
                | _ =>
                    warning "push_bulk to %s threw exception(%s) %s args=%s" uri ;;
                    ret None
                end) in
      match early with
      | Some b => ret b
      | None => count (inc_failed (id s)) ;; ret false
      end
  end.

(** *** claim_client_keys *)

(** Plain Python evaluation (no state) that may raise, run inside [M]. *)
Definition lift {A} (r : result A) : M A := λ w, (r, w).

Definition rbind {A B} (r : result A) (k : A → result B) : result B :=
  match r with
  | Returned a => k a
  | Raised e => Raised e
  end.

(** The query is a Python list object: the operation receives a reference
    into [lists] and may return the same reference. *)
Definition read_list (l : nat) : M (list claim) :=
  λ w, (Returned (default [] (lists w !! l)), w).

Definition new_list (items : list claim) : M nat :=
  λ w, (Returned (length (lists w)), with_lists (λ h, h ++ [items]) w).

(** [body.setdefault(user_id, {}).setdefault(device, []).append(algorithm)] *)
Definition add_claim (body : gmap string (gmap string (list string))) (c : claim) :
    gmap string (gmap string (list string)) :=
  let '(user_id, device, algorithm) := c in
  let devices := default ∅ (body !! user_id) in
  let algorithms := default [] (devices !! device) in
  <[user_id := <[device := algorithms ++ [algorithm]]> devices]> body.

Definition claim_body (query : list claim) : gmap string (gmap string (list string)) :=
  foldl add_claim ∅ query.

Definition json_of_claim_body (body : gmap string (gmap string (list string))) : json :=
  JObj ((λ devices : gmap string (list string),
           JObj ((λ algorithms, JList (JStr <$> algorithms)) <$> devices)) <$> body).

(** [algorithm not in response.get(user_id, {}).get(device, [])] *)
Definition not_fulfilled (response : json) (c : claim) : result bool :=
  let '(user_id, device, algorithm) := c in
  rbind (py_get response user_id (JObj ∅)) (λ devices,
  rbind (py_get devices device (JList [])) (λ keys,
  rbind (py_contains algorithm keys) (λ found,
  Returned (negb found)))).

(** The list comprehension that computes [missing]. *)
Fixpoint missing_claims (response : json) (query : list claim) : result (list claim) :=
  match query with
  | [] => Returned []
  | c :: rest =>
      rbind (not_fulfilled response c) (λ keep,
      rbind (missing_claims response rest) (λ tail,
      Returned (if keep then c :: tail else tail)))
  end.

(** The [try] statement either returns from a handler ([inl]) or leaves
    [response] bound ([inr]). *)
Definition claim_client_keys (s : service) (query : nat) : M (json * nat) :=
  match url s with
  | None => ret (JObj ∅, query)
  | Some base =>
      let* tok := assert_hs_token s in
      let* q := read_list query in
      let body := claim_body q in
      let uri := base +:+ "/_matrix/app/unstable/org.matrix.msc3983/keys/claim" in
      let* attempt :=
        try_except
          (let* response :=
             post_json_get_json uri (json_of_claim_body body) (bearer tok) in
           ret (inr response))
          (λ e, match e with
                | CodeMessageException code _ =>
                    if (code =? 404) || (code =? 405) then ret (inl (JObj ∅, query))
                    else (warning "claim_keys to %s received %s" uri ;;
                          ret (inl (JObj ∅, query)))
                | _ =>
                    warning "claim_keys to %s threw exception %s" uri ;;
                    ret (inl (JObj ∅, query))
                end) in
      match attempt with
      | inl early => ret early
      | inr response =>
          let* q := read_list query in
          let* missing := lift (missing_claims response q) in
          let* m := new_list missing in
          ret (response, m)
      end
  end.

(** *** get_3pe_protocol *)

(** [ThirdPartyInstanceID(appservice_id, network_id).to_string()] *)
Variable instance_id_string : string → json → string.

(** The loop of [_get] over the instances: each dict with a [network_id]
    that is not [None] gets its [instance_id]. *)
Fixpoint add_instance_ids (service_id : string) (instances : list json) :
    result (list json) :=
  match instances with
  | [] => Returned []
  | instance :: rest =>
      rbind (py_get instance "network_id" JNull) (λ network_id,
      let instance' :=
        match instance with
        | JObj m =>
            if is_None network_id then instance
            else JObj (<["instance_id" :=
                          JStr (instance_id_string service_id network_id)]> m)
        | _ => instance
        end in
      rbind (add_instance_ids service_id rest) (λ rest',
      Returned (instance' :: rest')))
  end.

(** [_get] up to its [await]: the assertion, the URI and the request. *)
Definition _get_begin (s : service) (protocol base : string) : M string :=
  let* tok := assert_hs_token s in
  let uri := base +:+ APP_SERVICE_PREFIX +:+ "/thirdparty/protocol/"
             +:+ quote protocol in
  issue {| method := GET; uri := uri;
           args := {[ "access_token" := ArgStr tok ]};
           json_body := None; headers := bearer tok |} ;;
  ret uri.

(** [_get] from the moment the awaited call has the outcome [o].  Once
    [_is_valid_3pe_metadata] has answered [True], [info] is a dict whose
    ["instances"] is a list (lemma [valid_metadata_shape]); the branches for
    other shapes are never taken. *)
Definition _get_end (s : service) (uri : string) (o : http_outcome) : M (option json) :=
  try_except
    (let* info := outcome o in
     let* valid := lift (_is_valid_3pe_metadata info) in
     if negb valid then
       warning "query_3pe_protocol to %s did not return a valid result" uri ;;
       ret None
     else
       match info with
       | JObj m =>
           match default (JList []) (m !! "instances") with
           | JList instances =>
               let* instances' := lift (add_instance_ids (id s) instances) in
               ret (Some (JObj (<["instances" := JList instances']> m)))
           | _ => raise TypeError
           end
       | _ => raise AttributeError
       end)
    (λ ex, warning "query_3pe_protocol to %s threw exception %s" uri ;; ret None).

(** What a lookup in the cache finds. *)
Inductive lookup_result :=
  | Hit (v : option json)
  | InFlight (owner : service) (uri : string) (waiters : list nat)
  | Miss.

(** Modelled from the spec: [ResponseCache.wrap] (synapse/util/caches) is not
    in this module.  Its contract: [wrap(key, producer)] returns a live
    (non-expired) entry, or the pending result of a call in flight, without
    invoking the producer; otherwise it invokes the producer once and stores
    the result with expiry [now + TTL]; an entry is evicted on the next
    lookup past its expiry.  [cache_lookup] is the first half of that
    contract; [get_3pe_protocol] and [get_3pe_protocol_resume] below apply
    it around [_get].  The contract says nothing of a producer that raises
    before it suspends: here the exception reaches the caller and nothing is
    stored. *)
Definition cache_lookup (t : Z) (e : option cache_entry) : lookup_result :=
  match e with
  | Some (Completed v expiry) => if t <=? expiry then Hit v else Miss
  | Some (Pending owner uri waiters) => InFlight owner uri waiters
  | None => Miss
  end.

Definition read_cache : M (gmap (string * string) cache_entry) :=
  λ w, (Returned (protocol_meta_cache w), w).

Definition set_entry (key : string * string) (e : cache_entry) : M unit :=
  λ w, (Returned (), with_cache (insert key e) w).

Definition evict (key : string * string) : M unit :=
  λ w, (Returned (), with_cache (delete key) w).

(** How far a caller of [get_3pe_protocol] gets before it first suspends:
    it has its answer, or it waits for the call in flight. *)
Inductive progress :=
  | Answered (v : option json)
  | Suspended.

(** [get_3pe_protocol] as run by [caller], up to its first suspension. *)
Definition get_3pe_protocol (caller : nat) (s : service) (protocol : string) :
    M progress :=
  match url s with
  | None => ret (Answered (Some (JObj ∅)))
  | Some base =>
      let key := (id s, protocol) in
      let* t := time_msec in
      let* cache := read_cache in
      match cache_lookup t (cache !! key) with
      | Hit v => ret (Answered v)
      | InFlight owner uri waiters =>
          set_entry key (Pending owner uri (waiters ++ [caller])) ;;
          ret Suspended
      | Miss =>
          evict key ;;
          let* uri := _get_begin s protocol base in
          set_entry key (Pending s uri [caller]) ;;
          ret Suspended
      end
  end.

(** The call in flight for [key] completes with outcome [o]: the owner's
    [_get] runs to its end, the result is stored for an hour, and every
    waiting caller is resumed with it.  The answer lists who receives what. *)
Definition get_3pe_protocol_resume (key : string * string) (o : http_outcome) :
    M (list (nat * option json)) :=
  let* cache := read_cache in
  match cache !! key with
  | Some (Pending owner uri waiters) =>
      let* v := _get_end owner uri o in
      let* t := time_msec in
      set_entry key (Completed v (t + HOUR_IN_MS)) ;;
      ret ((λ c, (c, v)) <$> waiters)
  | _ => ret []
  end.

(** *** Interleaved callers of get_3pe_protocol

    Execution is single-threaded and interleaves only where a call awaits
    the network.  An interleaving is a list of events: a caller enters
    [get_3pe_protocol], the call in flight for a key completes, or time
    passes.  Each step reports the answers it hands out. *)

Inductive event :=
  | Call (caller : nat) (s : service) (protocol : string)
  | Reply (key : string * string) (o : http_outcome)
  | Tick (dt : Z).

Definition step (ev : event) (w : world) : list (nat * result (option json)) * world :=
  match ev with
  | Call c s protocol =>
      match get_3pe_protocol c s protocol w with
      | (Returned (Answered v), w') => ([(c, Returned v)], w')
      | (Returned Suspended, w') => ([], w')
      | (Raised e, w') => ([(c, Raised e)], w')
      end
  | Reply key o =>
      match get_3pe_protocol_resume key o w with
      | (Returned answers, w') => ((λ a, (a.1, Returned a.2)) <$> answers, w')
      | (Raised e, w') => ([], w')
      end
  | Tick dt => ([], with_now (λ t, t + dt) w)
  end.

Fixpoint run (evs : list event) (w : world) : list (nat * result (option json)) * world :=
  match evs with
  | [] => ([], w)
  | ev :: rest =>
      let '(first, w') := step ev w in
      let '(others, w'') := run rest w' in
      (first ++ others, w'')
  end.

End Api.

(** * Vocabulary of the properties *)

(** ** The requests the operations issue *)

Section Requests.

Variable quote : string → string.

Definition users_request (base tok user_id : string) : request :=
  {| method := GET; uri := base +:+ "/users/" +:+ quote user_id;
     args := {[ "access_token" := ArgStr tok ]}; json_body := None;
     headers := bearer tok |}.

Definition rooms_request (base tok alias : string) : request :=
  {| method := GET; uri := base +:+ "/rooms/" +:+ quote alias;
     args := {[ "access_token" := ArgStr tok ]}; json_body := None;
     headers := bearer tok |}.

Definition thirdparty_request (base tok kind protocol : string)
    (fields : gmap string (list string)) : request :=
  {| method := GET;
     uri := base +:+ APP_SERVICE_PREFIX +:+ "/thirdparty/" +:+ kind +:+ "/"
            +:+ quote protocol;
     args := <["access_token" := ArgStr tok]> (ArgList <$> fields);
     json_body := None; headers := bearer tok |}.

Definition protocol_request (base tok protocol : string) : request :=
  {| method := GET;
     uri := base +:+ APP_SERVICE_PREFIX +:+ "/thirdparty/protocol/" +:+ quote protocol;
     args := {[ "access_token" := ArgStr tok ]}; json_body := None;
     headers := bearer tok |}.

End Requests.

Definition ping_request (base tok : string) (txn_id : option string) : request :=
  {| method := POST; uri := base +:+ "/_matrix/app/unstable/fi.mau.msc2659/ping";
     args := ∅;
     json_body := Some (JObj {[ "transaction_id" := from_option JStr JNull txn_id ]});
     headers := bearer tok |}.

Definition claim_request (base tok : string) (query : list claim) : request :=
  {| method := POST;
     uri := base +:+ "/_matrix/app/unstable/org.matrix.msc3983/keys/claim";
     args := ∅; json_body := Some (json_of_claim_body (claim_body query));
     headers := bearer tok |}.

(** ** Outcomes and shapes *)

(** What both existence queries make of the outcome of their call. *)
Definition exists_answer (o : http_outcome) : bool :=
  match o with
  | HttpOk body => negb (is_None body)
  | HttpErr _ => false
  end.

(** The shape [_is_valid_3pe_result] accepts, in the words of its
    specification: a mapping with a string under [field], a string under
    ["protocol"] and a mapping under ["fields"]. *)
Definition valid_3pe_result (field : string) (r : json) : Prop :=
  ∃ (m : gmap string json) (a p : string) (f : gmap string json),
    r = JObj m ∧ m !! field = Some (JStr a) ∧ m !! "protocol" = Some (JStr p)
    ∧ m !! "fields" = Some (JObj f).

(** A triple is fulfilled when the response has the algorithm under
    [response[user][device]]. *)
Definition fulfilled (response : json) (c : claim) : Prop :=
  let '(user_id, device, algorithm) := c in
  ∃ (m dm km : gmap string json) (key : json),
    response = JObj m ∧ m !! user_id = Some (JObj dm) ∧ dm !! device = Some (JObj km)
    ∧ km !! algorithm = Some key.

Definition fulfilledb (response : json) (c : claim) : bool :=
  let '(user_id, device, algorithm) := c in
  match response with
  | JObj m =>
      match m !! user_id with
      | Some (JObj dm) =>
          match dm !! device with
          | Some (JObj km) => bool_decide (is_Some (km !! algorithm))
          | _ => false
          end
      | _ => false
      end
  | _ => false
  end.

(** A well-formed response: a mapping from users to mappings from devices
    to mappings (from key ids to key objects). *)
Definition all_values (p : json → bool) (x : json) : bool :=
  match x with
  | JObj m => bool_decide (map_Forall (λ _ v, p v = true) m)
  | _ => false
  end.

Definition well_formed_response (response : json) : bool :=
  all_values (all_values isinstance_dict) response.

(** An event that leaves a call for [(id s, protocol)] in flight: a further
    caller asking [s] for [protocol], or time passing. *)
Definition waits_for (s : service) (protocol : string) (ev : event) : Prop :=
  match ev with
  | Call _ s' protocol' => s' = s ∧ protocol' = protocol
  | Reply _ _ => False
  | Tick _ => True
  end.

Definition callers (evs : list event) : list nat :=
  omap (λ ev, match ev with Call c _ _ => Some c | _ => None end) evs.

(** ** Worlds, services and queries for the examples *)

(** A world where nothing has happened yet, and two services. *)
Definition no_counters : counters :=
  {| sent_transactions_counter := ∅; failed_transactions_counter := ∅;
     sent_events_counter := ∅; sent_ephemeral_counter := ∅;
     sent_todevice_counter := ∅ |}.

Definition fresh_world (queries : list (list claim)) : world :=
  {| requests := []; warnings := []; now := 0; lists := queries;
     protocol_meta_cache := ∅; metrics := no_counters |}.

Definition bridge (token : option string) : service :=
  {| id := "irc"; url := Some "https://bridge.example"; hs_token := token;
     supports_ephemeral := false; msc3202_transaction_extensions := true;
     is_interested_in_user := λ _, false |}.

Definition unconfigured : service :=
  {| id := "bot"; url := None; hs_token := None;
     supports_ephemeral := true; msc3202_transaction_extensions := false;
     is_interested_in_user := λ _, false |}.

(** The example of the specification: two algorithms asked for one device,
    the response has a key for the first only. *)
Definition two_algorithms : list claim :=
  [("@u1:example", "d1", "alg1"); ("@u1:example", "d1", "alg2")].

Definition only_alg1 : json :=
  JObj {[ "@u1:example" :=
            JObj {[ "d1" := JObj {[ "alg1" := JObj {[ "key" := JStr "AAAA" ]} ]} ]} ]}.

(** ** Vocabulary of the further properties *)

(** What [_get] does to one instance: it writes ["instance_id"] when the
    instance has a ["network_id"] other than [None]. *)
Definition tag_instance (instance_id_string : string → json → string)
    (service_id : string) (instance : gmap string json) : gmap string json :=
  match instance !! "network_id" with
  | Some network_id =>
      if is_None network_id then instance
      else <["instance_id" := JStr (instance_id_string service_id network_id)]> instance
  | None => instance
  end.

(** The algorithms a query asks for one device of one user, in the order of
    the query. *)
Definition algorithms_for (query : list claim) (user_id device : string) : list string :=
  omap (λ c : claim,
          if decide (c.1.1 = user_id ∧ c.1.2 = device) then Some c.2 else None)
       query.

(** The value of a counter for a label ([0] until it is first incremented). *)
Definition reading (c : gmap string Z) (label : string) : Z :=
  default 0 (c !! label).

(** When [_serialize] asks for the stripped room state of an event. *)
Definition wants_stripped_state (s : service) (e : EventBase) : Prop :=
  type e = Member ∧ (membership e = INVITE ∨ membership e = KNOCK)
  ∧ is_interested_in_user s (state_key e) = true.

#[global] Instance wants_stripped_state_dec s e : Decision (wants_stripped_state s e).
Proof. unfold wants_stripped_state. apply _. Defined.

(** The events of a transaction as [_serialize] renders them at time [t]. *)
Definition serialized_at (serialize_event : EventBase → Z → SerializeEventConfig → json)
    (s : service) (t : Z) (events : list EventBase) : list json :=
  map (λ e, serialize_event e t
              {| as_client_event := true;
                 include_stripped_room_state := bool_decide (wants_stripped_state s e) |})
      events.

(** The request of [push_bulk] for a transaction pushed at time [t]. *)
Definition transaction_request (quote : string → string)
    (serialize_event : EventBase → Z → SerializeEventConfig → json)
    (str_of_int : Z → string) (s : service) (base tok : string)
    (events : list EventBase) (ephemeral to_device : list json)
    (otk fallback : gmap string json) (devices : DeviceListUpdates)
    (txn_id : option Z) (t : Z) : request :=
  {| method := PUT;
     uri := base +:+ "/transactions/" +:+ quote (str_of_int (default 0 txn_id));
     args := {[ "access_token" := ArgStr tok ]};
     json_body :=
       Some (JObj (transaction_body s (serialized_at serialize_event s t events)
                     ephemeral to_device otk fallback devices));
     headers := bearer tok |}.

(** The warning of [push_bulk] for a transaction without an id. *)
Definition missing_txn_id (base : string) : log_entry :=
  {| template := "push_bulk: Missing txn ID sending events to %s"; about := base |}.

(** The five counters read for one label: transactions sent, transactions
    failed, events sent, ephemeral events sent, to-device messages sent. *)
Definition readings (c : counters) (label : string) : Z * Z * Z * Z * Z :=
  (reading (sent_transactions_counter c) label,
   reading (failed_transactions_counter c) label,
   reading (sent_events_counter c) label,
   reading (sent_ephemeral_counter c) label,
   reading (sent_todevice_counter c) label).

(** A transaction for the examples: one message, one typing notification,
    one to-device message, pushed to the bridge (which has the MSC3202
    extensions and no support for ephemeral events). *)
Definition a_message : EventBase :=
  {| type := "m.room.message"; membership := ""; state_key := "";
     content := JObj {[ "body" := JStr "hello" ]} |}.

Definition push_example (reply : request → http_outcome) (txn_id : option Z)
    (w : world) : result bool * world :=
  push_bulk (λ x, x) reply (λ e _ _, content e) (λ _, "0") (bridge (Some "secret"))
    [a_message] [JObj {[ "type" := JStr "m.typing" ]}]
    [JObj {[ "type" := JStr "m.room_key" ]}]
    {[ "@u1:example" := JObj {[ "d1" := JObj {[ "signed_curve25519" := JInt 5 ]} ]} ]}
    ∅ {| changed := []; left := [] |} txn_id w.

(** * Properties *)

(** Unfolding of the monadic plumbing. *)
Ltac unfold_M :=
  unfold bind, ret, raise, try_except, lift, warning, time_msec, count, issue,
    read_list, new_list, read_cache, set_entry, evict in *.

Ltac run_M := unfold_M; cbn in *.

(** ** The model at work *)

Example claim_body_groups :
  claim_body two_algorithms = {[ "@u1:example" := {[ "d1" := ["alg1"; "alg2"] ]} ]}.
Proof. vm_compute. reflexivity. Qed.

Example metadata_needs_an_instances_list :
  _is_valid_3pe_metadata (JObj {[ "instances" := JList [] ]}) = Returned true ∧
  _is_valid_3pe_metadata (JObj {[ "instances" := JObj ∅ ]}) = Returned false ∧
  _is_valid_3pe_metadata (JObj ∅) = Returned false ∧
  _is_valid_3pe_metadata (JStr "no instances here") = Raised TypeError ∧
  _is_valid_3pe_metadata JNull = Raised TypeError.
Proof. vm_compute. repeat split. Qed.

Example malformed_claim_response_raises :
  missing_claims (JObj {[ "@u1:example" := JList [] ]}) two_algorithms
  = Raised AttributeError.
Proof. vm_compute. reflexivity. Qed.

Section Properties.

Context (quote : string → string) (reply : request → http_outcome).
Context (serialize_event : EventBase → Z → SerializeEventConfig → json).
Context (str_of_int : Z → string) (instance_id_string : string → json → string).

(** ** Shared facts *)

Lemma assert_hs_token_set s tok w :
  hs_token s = Some tok → assert_hs_token s w = (Returned tok, w).
Proof. intros H. unfold assert_hs_token. now rewrite H. Qed.

Lemma assert_hs_token_unset s w :
  hs_token s = None → assert_hs_token s w = (Raised no_hs_token, w).
Proof. intros H. unfold assert_hs_token. now rewrite H. Qed.

Lemma send_ok req body w :
  reply req = HttpOk body →
  send reply req w = (Returned body, with_requests (λ l, l ++ [req]) w).
Proof. intros H. unfold send, outcome. run_M. now rewrite H. Qed.

(** ** Services without a URL *)

(** C3. A service whose [url] is [None] gets the no-op default of every
    operation, and the world is left as it was: no request is issued (nor
    anything logged, counted or cached).  [query_3pe] is taken at one of its
    two kinds. *)
Theorem no_url_is_a_noop (s : service) (w : world) :
  url s = None →
  (∀ user_id, query_user quote reply s user_id w = (Returned false, w)) ∧
  (∀ alias, query_alias quote reply s alias w = (Returned false, w)) ∧
  (∀ kind protocol fields, kind = USER ∨ kind = LOCATION →
     query_3pe quote reply s kind protocol fields w = (Returned [], w)) ∧
  (∀ caller protocol,
     get_3pe_protocol quote caller s protocol w
     = (Returned (Answered (Some (JObj ∅))), w)) ∧
  (∀ events ephemeral to_device otk fallback devices txn_id,
     push_bulk quote reply serialize_event str_of_int s events ephemeral to_device
       otk fallback devices txn_id w = (Returned true, w)) ∧
  (∀ query, claim_client_keys reply s query w = (Returned (JObj ∅, query), w)).
Proof.
  intros Hurl.
  unfold query_user, query_alias, query_3pe, get_3pe_protocol, push_bulk,
    claim_client_keys.
  rewrite Hurl. repeat split; try reflexivity.
  intros kind protocol fields [-> | ->]; reflexivity.
Qed.

(** ** Existence queries *)

Lemma query_user_result s base tok user_id w :
  url s = Some base → hs_token s = Some tok →
  ∃ w', query_user quote reply s user_id w
        = (Returned (exists_answer (reply (users_request quote base tok user_id))), w') ∧
        requests w' = requests w ++ [users_request quote base tok user_id].
Proof.
  intros Hurl Htok. unfold query_user. rewrite Hurl.
  unfold bind at 1. rewrite (assert_hs_token_set _ _ _ Htok).
  unfold get_json, send, outcome. fold (users_request quote base tok user_id).
  destruct (reply (users_request quote base tok user_id)) as [body | [code msg | cls]];
    run_M.
  - destruct body; cbn; eauto.
  - destruct (code =? 404); cbn; eauto.
  - eauto.
Qed.

Lemma query_alias_result s base tok alias w :
  url s = Some base → hs_token s = Some tok →
  ∃ w', query_alias quote reply s alias w
        = (Returned (exists_answer (reply (rooms_request quote base tok alias))), w') ∧
        requests w' = requests w ++ [rooms_request quote base tok alias].
Proof.
  intros Hurl Htok. unfold query_alias. rewrite Hurl.
  unfold bind at 1. rewrite (assert_hs_token_set _ _ _ Htok).
  unfold get_json, send, outcome. fold (rooms_request quote base tok alias).
  destruct (reply (rooms_request quote base tok alias)) as [body | [code msg | cls]];
    run_M.
  - destruct body; cbn; eauto.
  - destruct (code =? 404); cbn; eauto.
  - eauto.
Qed.

(** C4, as the code has it.  With [url] and [hs_token] set, [query_user] and
    [query_alias] answer [False] on every failure of the call (status 404,
    any other status, any other exception) and on a 2xx answer whose decoded
    body is [None]; they answer [True] on every other 2xx body, the empty
    object included. *)
Theorem existence_queries (s : service) (base tok name : string) (w : world) :
  url s = Some base → hs_token s = Some tok →
  let ask_user := users_request quote base tok name in
  let ask_room := rooms_request quote base tok name in
  ((∀ e, reply ask_user = HttpErr e →
      (query_user quote reply s name w).1 = Returned false) ∧
   (reply ask_user = HttpOk JNull →
      (query_user quote reply s name w).1 = Returned false) ∧
   (∀ body, reply ask_user = HttpOk body → body ≠ JNull →
      (query_user quote reply s name w).1 = Returned true)) ∧
  ((∀ e, reply ask_room = HttpErr e →
      (query_alias quote reply s name w).1 = Returned false) ∧
   (reply ask_room = HttpOk JNull →
      (query_alias quote reply s name w).1 = Returned false) ∧
   (∀ body, reply ask_room = HttpOk body → body ≠ JNull →
      (query_alias quote reply s name w).1 = Returned true)).
Proof.
  intros Hurl Htok ask_user ask_room.
  destruct (query_user_result s base tok name w Hurl Htok) as (wu & Hu & _).
  destruct (query_alias_result s base tok name w Hurl Htok) as (wa & Ha & _).
  rewrite Hu, Ha. subst ask_user ask_room. cbn [fst].
  repeat split.
  - intros e ->. reflexivity.
  - intros ->. reflexivity.
  - intros body -> Hbody. destruct body; cbn; congruence.
  - intros e ->. reflexivity.
  - intros ->. reflexivity.
  - intros body -> Hbody. destruct body; cbn; congruence.
Qed.

(** ** The kind argument of query_3pe *)

(** C10. Whatever the service, a [kind] other than ["user"] and ["location"]
    makes [query_3pe] raise [ValueError]; the check comes before the test on
    [url], and nothing is sent or logged. *)
Theorem unrecognised_kind_raises (s : service) (kind protocol : string)
    (fields : gmap string (list string)) (w : world) :
  kind ≠ USER → kind ≠ LOCATION →
  query_3pe quote reply s kind protocol fields w
  = (Raised (ValueError "Unrecognised 'kind' argument %r to query_3pe()"), w).
Proof.
  intros Hu Hl. unfold query_3pe.
  apply String.eqb_neq in Hu, Hl. rewrite Hu, Hl. reflexivity.
Qed.

End Properties.

Lemma no_url_is_a_noop_witness :
  url unconfigured = None ∧
  query_user (λ x, x) (λ _, HttpOk (JObj ∅)) unconfigured "@u:example"
    (fresh_world []) = (Returned false, fresh_world []).
Proof.
  split; [reflexivity |].
  apply (no_url_is_a_noop (λ x, x) (λ _, HttpOk (JObj ∅)) (λ _ _ _, JNull)
           (λ _, "0") unconfigured (fresh_world [])).
  reflexivity.
Defined.

Lemma existence_queries_witness :
  let s := bridge (Some "secret") in
  let found := λ _ : request, HttpOk (JObj ∅) in
  let not_found := λ _ : request, HttpErr (HttpStatus 404 "Not found") in
  url s = Some "https://bridge.example" ∧ hs_token s = Some "secret" ∧
  (query_user (λ x, x) found s "@u:example" (fresh_world [])).1 = Returned true ∧
  (query_alias (λ x, x) not_found s "#room:example" (fresh_world [])).1
  = Returned false.
Proof.
  intros s found not_found.
  split; [reflexivity |]. split; [reflexivity |]. split.
  - pose proof (existence_queries (λ x, x) found s "https://bridge.example" "secret"
                  "@u:example" (fresh_world []) eq_refl eq_refl) as H.
    cbv zeta in H. destruct H as [(_ & _ & H) _].
    apply (H (JObj ∅)); [reflexivity | discriminate].
  - pose proof (existence_queries (λ x, x) not_found s "https://bridge.example"
                  "secret" "#room:example" (fresh_world []) eq_refl eq_refl) as H.
    cbv zeta in H. destruct H as [_ (H & _)].
    apply (H (HttpStatus 404 "Not found")). reflexivity.
Defined.

(** Counterexample to C4 read as "[True] exactly when the call succeeds":
    the call succeeds with the JSON body [null], and [query_user] does not
    answer [True]. *)
Lemma null_body_is_not_existence :
  let reply := λ _ : request, HttpOk JNull in
  let ask := users_request (λ x, x) "https://bridge.example" "secret" "@u:example" in
  ¬ ((query_user (λ x, x) reply (bridge (Some "secret")) "@u:example"
        (fresh_world [])).1 = Returned true
     ↔ ∃ body, reply ask = HttpOk body).
Proof.
  cbn. intros [_ H]. specialize (H (ex_intro _ JNull eq_refl)). discriminate H.
Qed.

Lemma unrecognised_kind_raises_witness :
  query_3pe (λ x, x) (λ _, HttpOk (JList [])) unconfigured "room" "irc" ∅
    (fresh_world [])
  = (Raised (ValueError "Unrecognised 'kind' argument %r to query_3pe()"),
     fresh_world []).
Proof.
  apply (unrecognised_kind_raises (λ x, x) (λ _, HttpOk (JList [])) unconfigured
           "room" "irc" ∅ (fresh_world [])); discriminate.
Defined.

(** ** Third-party lookups *)

Lemma _is_valid_3pe_result_true r field :
  _is_valid_3pe_result r field = true ↔ valid_3pe_result field r.
Proof.
  split.
  - destruct r as [| | | | | |m]; try discriminate. cbn.
    destruct (m !! field) as [[| | | |a| |]|] eqn:Hf; try discriminate. cbn.
    destruct (m !! "protocol") as [[| | | |p| |]|] eqn:Hp; try discriminate. cbn.
    destruct (m !! "fields") as [[| | | | | |f]|] eqn:Hfs; try discriminate.
    intros _. by exists m, a, p, f.
  - intros (m & a & p & f & -> & Hf & Hp & Hfs). cbn. by rewrite Hf, Hp, Hfs.
Qed.

#[global] Instance valid_3pe_result_dec field r : Decision (valid_3pe_result field r).
Proof.
  destruct (_is_valid_3pe_result r field) eqn:E.
  - left. by apply _is_valid_3pe_result_true.
  - right. intros H. apply _is_valid_3pe_result_true in H. congruence.
Defined.

Section ThirdParty.

Context (quote : string → string) (reply : request → http_outcome).

Lemma collect_3pe_filter uri field l : ∀ acc w,
  ∃ w', collect_3pe uri field l acc w
        = (Returned (acc ++ filter (valid_3pe_result field) l), w')
        ∧ requests w' = requests w.
Proof.
  induction l as [|r l IH]; intros acc w; cbn [collect_3pe].
  - exists w. by rewrite filter_nil, app_nil_r.
  - rewrite filter_cons. destruct (decide (valid_3pe_result field r)) as [Hv | Hv].
    + apply _is_valid_3pe_result_true in Hv. rewrite Hv.
      destruct (IH (acc ++ [r]) w) as (w' & -> & Hreq).
      exists w'. split; [|done]. by rewrite <- app_assoc.
    + destruct (_is_valid_3pe_result r field) eqn:E.
      { exfalso. by apply Hv, _is_valid_3pe_result_true. }
      run_M.
      match goal with
      | |- ∃ _, collect_3pe _ _ _ ?a ?w0 = _ ∧ _ =>
          destruct (IH a w0) as (w' & -> & Hreq)
      end.
      exists w'. by split.
Qed.

(** C6. With [url] and [hs_token] set and [kind] one of the two kinds,
    [query_3pe] returns, in order, exactly the elements of the response list
    that are mappings with a string under the required field (["userid"] for
    users, ["alias"] for locations), a string under ["protocol"] and a
    mapping under ["fields"]; a response that is not a list gives the empty
    list. *)
Theorem query_3pe_keeps_valid_results (s : service) (base tok kind field protocol : string)
    (fields : gmap string (list string)) (w : world) :
  url s = Some base → hs_token s = Some tok →
  (kind = USER ∧ field = "userid") ∨ (kind = LOCATION ∧ field = "alias") →
  let ask := thirdparty_request quote base tok kind protocol fields in
  (∀ l, reply ask = HttpOk (JList l) →
     (query_3pe quote reply s kind protocol fields w).1
     = Returned (filter (valid_3pe_result field) l)) ∧
  (∀ body, reply ask = HttpOk body → isinstance_list body = false →
     (query_3pe quote reply s kind protocol fields w).1 = Returned []).
Proof.
  intros Hurl Htok Hkind ask.
  assert (query_3pe quote reply s kind protocol fields w
          = try_except
              (let* response := get_json reply (uri ask) (args ask) (bearer tok) in
               match response with
               | JList l => collect_3pe (uri ask) field l []
               | _ =>
                   warning "query_3pe to %s returned an invalid response %r" (uri ask) ;;
                   ret []
               end)
              (λ ex, warning "query_3pe to %s threw exception %s" (uri ask) ;; ret [])
              w) as ->.
  { unfold query_3pe. rewrite Hurl.
    destruct Hkind as [[-> ->] | [-> ->]]; cbn [String.eqb];
      unfold bind at 1; cbn; unfold bind at 1;
      rewrite (assert_hs_token_set _ _ _ Htok); reflexivity. }
  unfold get_json. fold ask.
  change {| method := GET; uri := uri ask; args := args ask; json_body := None;
            headers := bearer tok |} with ask.
  split.
  - intros l Hl. unfold try_except, bind at 1. rewrite (send_ok _ _ _ _ Hl).
    destruct (collect_3pe_filter (uri ask) field l [] (with_requests (λ l, l ++ [ask]) w))
      as (w' & -> & _). reflexivity.
  - intros body Hbody Hnl. unfold try_except, bind at 1. rewrite (send_ok _ _ _ _ Hbody).
    destruct body; try discriminate; reflexivity.
Qed.

End ThirdParty.

Lemma query_3pe_keeps_valid_results_witness :
  let good : json :=
    JObj {[ "userid" := JStr "@irc_bob:example"; "protocol" := JStr "irc";
            "fields" := JObj {[ "nick" := JStr "bob" ]} ]} in
  let bad : json :=
    JObj {[ "userid" := JStr "@irc_eve:example"; "protocol" := JStr "irc" ]} in
  let s := bridge (Some "secret") in
  (query_3pe (λ x, x) (λ _, HttpOk (JList [good; bad])) s "user" "irc" ∅
     (fresh_world [])).1 = Returned [good] ∧
  (query_3pe (λ x, x) (λ _, HttpOk good) s "location" "irc" ∅ (fresh_world [])).1
  = Returned [].
Proof.
  intros good bad s. split.
  - destruct (query_3pe_keeps_valid_results (λ x, x) (λ _, HttpOk (JList [good; bad]))
                s "https://bridge.example" "secret" "user" "userid" "irc" ∅
                (fresh_world []) eq_refl eq_refl (or_introl (conj eq_refl eq_refl)))
      as [Hlist _].
    rewrite (Hlist [good; bad] eq_refl). vm_compute. reflexivity.
  - destruct (query_3pe_keeps_valid_results (λ x, x) (λ _, HttpOk good)
                s "https://bridge.example" "secret" "location" "alias" "irc" ∅
                (fresh_world []) eq_refl eq_refl (or_intror (conj eq_refl eq_refl)))
      as [_ Hother].
    apply (Hother good); reflexivity.
Defined.

(** ** Transactions *)

Section Push.

Context (quote : string → string) (reply : request → http_outcome).
Context (serialize_event : EventBase → Z → SerializeEventConfig → json).
Context (str_of_int : Z → string).

Lemma transaction_body_ephemeral s events ephemeral to_device otk fallback devices :
  let body := transaction_body s events ephemeral to_device otk fallback devices in
  body !! "de.sorunome.msc2409.ephemeral"
  = (if supports_ephemeral s then Some (JList ephemeral) else None) ∧
  body !! "de.sorunome.msc2409.to_device"
  = (if supports_ephemeral s then Some (JList to_device) else None).
Proof.
  unfold transaction_body.
  destruct (supports_ephemeral s), (msc3202_transaction_extensions s),
    (truthy_dict otk), (truthy_dict fallback), (truthy_device_lists devices);
    cbn zeta; split; by simplify_map_eq.
Qed.

(** The request [push_bulk] puts on the wire. *)
Lemma push_bulk_request s base tok events ephemeral to_device otk fallback devices
    txn_id w :
  url s = Some base → hs_token s = Some tok →
  ∃ serialized result w',
    push_bulk quote reply serialize_event str_of_int s events ephemeral to_device
      otk fallback devices txn_id w = (Returned result, w') ∧
    requests w' = requests w
      ++ [{| method := PUT;
             uri := base +:+ "/transactions/"
                    +:+ quote (str_of_int (default 0 txn_id));
             args := {[ "access_token" := ArgStr tok ]};
             json_body :=
               Some (JObj (transaction_body s serialized ephemeral to_device otk
                             fallback devices));
             headers := bearer tok |}].
Proof.
  intros Hurl Htok. unfold push_bulk. rewrite Hurl.
  unfold bind at 1. rewrite (assert_hs_token_set _ _ _ Htok).
  unfold _serialize, put_json, send, outcome.
  destruct txn_id as [t|]; run_M;
    match goal with
    | |- context [reply ?r] => destruct (reply r) as [body | [code msg | cls]]
    end; cbn; eauto.
Qed.

(** C5. With [url] and [hs_token] set, [push_bulk] sends one PUT whose JSON
    body has neither the ephemeral nor the to-device field when the service
    does not support ephemeral events, whatever lists were passed, and has
    both, holding the lists passed, when it does. *)
Theorem push_bulk_ephemeral_fields (s : service) (base tok : string)
    (events : list EventBase) (ephemeral to_device : list json)
    (otk fallback : gmap string json) (devices : DeviceListUpdates)
    (txn_id : option Z) (w : world) :
  url s = Some base → hs_token s = Some tok →
  ∃ req body,
    requests (push_bulk quote reply serialize_event str_of_int s events ephemeral
                to_device otk fallback devices txn_id w).2
    = requests w ++ [req] ∧
    method req = PUT ∧ json_body req = Some (JObj body) ∧
    (supports_ephemeral s = false →
       body !! "de.sorunome.msc2409.ephemeral" = None ∧
       body !! "de.sorunome.msc2409.to_device" = None) ∧
    (supports_ephemeral s = true →
       body !! "de.sorunome.msc2409.ephemeral" = Some (JList ephemeral) ∧
       body !! "de.sorunome.msc2409.to_device" = Some (JList to_device)).
Proof.
  intros Hurl Htok.
  destruct (push_bulk_request s base tok events ephemeral to_device otk fallback
              devices txn_id w Hurl Htok) as (serialized & result & w' & -> & Hreq).
  cbn [snd]. rewrite Hreq. eexists _, _. split; [reflexivity |].
  split; [reflexivity |]. split; [reflexivity |].
  pose proof (transaction_body_ephemeral s serialized ephemeral to_device otk
                fallback devices) as [He Ht].
  cbv zeta in He, Ht. split; intros Hs; rewrite Hs in He, Ht; by split.
Qed.

End Push.

Lemma push_bulk_ephemeral_fields_witness :
  let typing : json := JObj {[ "type" := JStr "m.typing" ]} in
  let message : json := JObj {[ "type" := JStr "m.room_key" ]} in
  ∃ req body,
    requests (push_bulk (λ x, x) (λ _, HttpOk (JObj ∅)) (λ e _ _, content e)
                (λ _, "7") (bridge (Some "secret")) [] [typing] [message] ∅ ∅
                {| changed := []; left := [] |} (Some 7) (fresh_world [])).2
    = [req] ∧
    json_body req = Some (JObj body) ∧
    body !! "de.sorunome.msc2409.ephemeral" = None ∧
    body !! "de.sorunome.msc2409.to_device" = None.
Proof.
  intros typing message.
  destruct (push_bulk_ephemeral_fields (λ x, x) (λ _, HttpOk (JObj ∅))
              (λ e _ _, content e) (λ _, "7") (bridge (Some "secret"))
              "https://bridge.example" "secret" [] [typing] [message] ∅ ∅
              {| changed := []; left := [] |} (Some 7) (fresh_world [])
              eq_refl eq_refl) as (req & body & Hreq & _ & Hbody & Hoff & _).
  exists req, body. split; [exact Hreq |]. split; [exact Hbody |].
  apply Hoff. reflexivity.
Defined.

(** ** Key claims *)

Lemma fulfilledb_true response c : fulfilledb response c = true ↔ fulfilled response c.
Proof.
  destruct c as [[u d] a]. unfold fulfilledb, fulfilled. split.
  - destruct response as [| | | | | |m]; try discriminate.
    destruct (m !! u) as [[| | | | | |dm]|] eqn:Hu; try discriminate.
    destruct (dm !! d) as [[| | | | | |km]|] eqn:Hd; try discriminate.
    intros H. apply bool_decide_eq_true in H as [key Hkey].
    by exists m, dm, km, key.
  - intros (m & dm & km & key & -> & -> & -> & Hkey).
    apply bool_decide_eq_true. by exists key.
Qed.

#[global] Instance fulfilled_dec response c : Decision (fulfilled response c).
Proof.
  destruct (fulfilledb response c) eqn:E.
  - left. by apply fulfilledb_true.
  - right. intros H. apply fulfilledb_true in H. congruence.
Defined.

Lemma all_values_lookup p m k v :
  all_values p (JObj m) = true → m !! k = Some v → p v = true.
Proof.
  intros H Hk. apply bool_decide_eq_true in H. exact (H k v Hk).
Qed.

Lemma not_fulfilled_well_formed response c :
  well_formed_response response = true →
  not_fulfilled response c = Returned (bool_decide (¬ fulfilled response c)).
Proof.
  intros Hwf.
  assert (bool_decide (¬ fulfilled response c) = negb (fulfilledb response c)) as ->.
  { destruct (fulfilledb response c) eqn:E; cbn.
    - apply bool_decide_eq_false. intros H. by apply H, fulfilledb_true.
    - apply bool_decide_eq_true. intros H. apply fulfilledb_true in H. congruence. }
  destruct c as [[u d] a]. unfold well_formed_response in Hwf.
  destruct response as [| | | | | |m]; try discriminate. cbn.
  destruct (m !! u) as [devices|] eqn:Hu; cbn.
  - pose proof (all_values_lookup _ _ _ _ Hwf Hu) as Hdev.
    destruct devices as [| | | | | |dm]; try discriminate. cbn.
    destruct (dm !! d) as [keys|] eqn:Hd; cbn; [|reflexivity].
    pose proof (all_values_lookup _ _ _ _ Hdev Hd) as Hkeys.
    destruct keys; try discriminate. reflexivity.
  - rewrite lookup_empty. reflexivity.
Qed.

Lemma missing_claims_well_formed response query :
  well_formed_response response = true →
  missing_claims response query = Returned (filter (λ c, ¬ fulfilled response c) query).
Proof.
  intros Hwf. induction query as [|c query IH]; [reflexivity |].
  cbn [missing_claims]. rewrite (not_fulfilled_well_formed _ _ Hwf), IH.
  rewrite filter_cons. destruct (decide (¬ fulfilled response c)) as [H | H].
  - by rewrite bool_decide_eq_true_2.
  - by rewrite bool_decide_eq_false_2.
Qed.

Section Claims.

Context (reply : request → http_outcome).

(** C1. With [url] and [hs_token] set, a query list [query] held at
    reference [q], and a well-formed response, [claim_client_keys] returns
    the response together with a new list that holds, in order, exactly the
    triples of [query] whose algorithm is not in [response[user][device]]. *)
Theorem claim_client_keys_missing (s : service) (base tok : string) (q : nat)
    (query : list claim) (response : json) (w : world) :
  url s = Some base → hs_token s = Some tok →
  lists w !! q = Some query →
  reply (claim_request base tok query) = HttpOk response →
  well_formed_response response = true →
  ∃ w', claim_client_keys reply s q w = (Returned (response, length (lists w)), w') ∧
        lists w' = lists w ++ [filter (λ c, ¬ fulfilled response c) query].
Proof.
  intros Hurl Htok Hq Hreply Hwf. unfold claim_client_keys. rewrite Hurl.
  unfold bind at 1. rewrite (assert_hs_token_set _ _ _ Htok).
  unfold claim_request, claim_body in Hreply.
  unfold post_json_get_json, send, outcome, claim_body. run_M.
  rewrite Hq. cbn. rewrite Hreply. cbn. rewrite Hq. cbn.
  rewrite (missing_claims_well_formed _ _ Hwf). eauto.
Qed.

Lemma claim_client_keys_failure (s : service) (base tok : string) (q : nat)
    (e : http_error) (w : world) :
  url s = Some base → hs_token s = Some tok →
  reply (claim_request base tok (default [] (lists w !! q))) = HttpErr e →
  ∃ w', claim_client_keys reply s q w = (Returned (JObj ∅, q), w') ∧
        lists w' = lists w ∧
        (∀ code msg, e = HttpStatus code msg → code = 404 ∨ code = 405 →
           warnings w' = warnings w).
Proof.
  intros Hurl Htok Hreply. unfold claim_client_keys. rewrite Hurl.
  unfold bind at 1. rewrite (assert_hs_token_set _ _ _ Htok).
  unfold claim_request, claim_body in Hreply.
  unfold post_json_get_json, send, outcome, claim_body. run_M.
  rewrite Hreply.
  destruct e as [code msg | cls]; cbn.
  - destruct ((code =? 404) || (code =? 405)) eqn:Hcode; cbn.
    + eexists. split; [reflexivity |]. split; [reflexivity |]. reflexivity.
    + eexists. split; [reflexivity |]. split; [reflexivity |].
      intros code' msg' [= <- <-] Hc. exfalso.
      apply orb_false_iff in Hcode as [H4 H5]. lia.
  - eexists. split; [reflexivity |]. split; [reflexivity |]. discriminate.
Qed.

(** C2. With [url] and [hs_token] set, every failure of the call (a 404, a
    405, any other status, any other exception) makes [claim_client_keys]
    return the empty mapping and the very list it was given; no list object
    is changed, and a 404 or a 405 is not even logged. *)
Theorem claim_client_keys_unsupported (s : service) (base tok : string) (q : nat)
    (e : http_error) (w : world) :
  url s = Some base → hs_token s = Some tok →
  reply (claim_request base tok (default [] (lists w !! q))) = HttpErr e →
  ∃ w', claim_client_keys reply s q w = (Returned (JObj ∅, q), w') ∧
        lists w' = lists w ∧
        (∀ code msg, e = HttpStatus code msg → code = 404 ∨ code = 405 →
           warnings w' = warnings w).
Proof. apply claim_client_keys_failure. Qed.

(** Past the assertion, [claim_client_keys] raises only what the
    reconciliation of a malformed response raises. *)
Lemma not_fulfilled_raises response c e :
  not_fulfilled response c = Raised e → e = AttributeError ∨ e = TypeError.
Proof.
  destruct c as [[u d] a]. unfold not_fulfilled, rbind, py_get, py_contains.
  destruct response; try (intros [= <-]; auto).
  destruct (default (JObj ∅) (m !! u)); try (intros [= <-]; auto).
  destruct (default (JList []) (m0 !! d)); try (intros [= <-]; auto); discriminate.
Qed.

Lemma missing_claims_raises response query e :
  missing_claims response query = Raised e → e = AttributeError ∨ e = TypeError.
Proof.
  induction query as [|c query IH]; [discriminate |]. cbn [missing_claims].
  destruct (not_fulfilled response c) as [keep | e'] eqn:Hc; cbn.
  - destruct (missing_claims response query) as [tail | e'']; cbn; [discriminate |].
    intros [= <-]. by apply IH.
  - intros [= <-]. by apply not_fulfilled_raises in Hc.
Qed.

Lemma claim_client_keys_raises (s : service) (q : nat) (e : exn) (w : world) :
  hs_token s ≠ None →
  (claim_client_keys reply s q w).1 = Raised e → e = AttributeError ∨ e = TypeError.
Proof.
  intros Htok. unfold claim_client_keys.
  destruct (url s) as [base|]; [|discriminate].
  destruct (hs_token s) as [tok|] eqn:Ht; [|done].
  unfold bind at 1. rewrite (assert_hs_token_set _ _ _ Ht).
  unfold post_json_get_json, send, outcome. run_M.
  match goal with
  | |- context [reply ?r] => destruct (reply r) as [body | [code msg | cls]]
  end; cbn.
  - destruct (missing_claims body (default [] (lists w !! q))) eqn:Hm; cbn;
      [discriminate |]. intros [= <-]. by apply missing_claims_raises in Hm.
  - destruct ((code =? 404) || (code =? 405)); discriminate.
  - discriminate.
Qed.

End Claims.

Lemma claim_client_keys_missing_witness :
  let w := fresh_world [two_algorithms] in
  ∃ w', claim_client_keys (λ _, HttpOk only_alg1) (bridge (Some "secret")) 0%nat w
        = (Returned (only_alg1, 1%nat), w') ∧
        lists w' = [two_algorithms; [("@u1:example", "d1", "alg2")]].
Proof.
  intros w.
  destruct (claim_client_keys_missing (λ _, HttpOk only_alg1) (bridge (Some "secret"))
              "https://bridge.example" "secret" 0%nat two_algorithms only_alg1 w
              eq_refl eq_refl eq_refl eq_refl eq_refl) as (w' & Hcall & Hlists).
  exists w'. split; [exact Hcall |]. rewrite Hlists. vm_compute. reflexivity.
Defined.

Lemma claim_client_keys_unsupported_witness :
  let w := fresh_world [two_algorithms] in
  ∃ w', claim_client_keys (λ _, HttpErr (HttpStatus 404 "Not found"))
          (bridge (Some "secret")) 0%nat w = (Returned (JObj ∅, 0%nat), w') ∧
        lists w' = [two_algorithms].
Proof.
  intros w.
  destruct (claim_client_keys_unsupported (λ _, HttpErr (HttpStatus 404 "Not found"))
              (bridge (Some "secret")) "https://bridge.example" "secret" 0%nat
              (HttpStatus 404 "Not found") w eq_refl eq_refl eq_refl)
    as (w' & Hcall & Hlists & _).
  exists w'. split; [exact Hcall | exact Hlists].
Defined.

(** ** What each operation makes of a failed call *)

Section Failures.

Context (quote : string → string) (reply : request → http_outcome).
Context (serialize_event : EventBase → Z → SerializeEventConfig → json).
Context (str_of_int : Z → string) (instance_id_string : string → json → string).

Lemma ping_result s base tok txn_id w :
  url s = Some base → hs_token s = Some tok →
  ping reply s txn_id w
  = (match reply (ping_request base tok txn_id) with
     | HttpOk _ => Returned ()
     | HttpErr e => Raised (exn_of e)
     end,
     with_requests (λ l, l ++ [ping_request base tok txn_id]) w).
Proof.
  intros Hurl Htok. unfold ping. rewrite Hurl.
  unfold bind at 1. rewrite (assert_hs_token_set _ _ _ Htok).
  unfold post_json_get_json, send, outcome. fold (ping_request base tok txn_id).
  run_M. by destruct (reply (ping_request base tok txn_id)).
Qed.

Lemma query_3pe_returns s tok kind protocol fields w :
  hs_token s = Some tok → kind = USER ∨ kind = LOCATION →
  ∃ l w', query_3pe quote reply s kind protocol fields w = (Returned l, w').
Proof.
  intros Htok Hkind. unfold query_3pe.
  destruct (url s) as [base|];
    [| destruct Hkind as [-> | ->]; cbn; eauto].
  unfold get_json, send, outcome.
  destruct Hkind as [-> | ->]; cbn [String.eqb]; unfold bind at 1; cbn;
    unfold bind at 1; rewrite (assert_hs_token_set _ _ _ Htok); run_M;
    match goal with
    | |- context [reply ?r] => destruct (reply r) as [body | e]
    end; cbn; eauto;
    destruct body; cbn; eauto;
    match goal with
    | |- context [collect_3pe ?u ?f ?l ?a ?w0] =>
        destruct (collect_3pe_filter u f l a w0) as (w' & -> & _)
    end; eauto.
Qed.

Lemma query_3pe_failure s base tok kind protocol fields e w :
  url s = Some base → hs_token s = Some tok → kind = USER ∨ kind = LOCATION →
  reply (thirdparty_request quote base tok kind protocol fields) = HttpErr e →
  (query_3pe quote reply s kind protocol fields w).1 = Returned [].
Proof.
  intros Hurl Htok Hkind Hreply. unfold query_3pe. rewrite Hurl.
  unfold thirdparty_request in Hreply. unfold get_json, send, outcome.
  destruct Hkind as [-> | ->]; cbn [String.eqb]; unfold bind at 1; cbn;
    unfold bind at 1; rewrite (assert_hs_token_set _ _ _ Htok); run_M;
    rewrite Hreply; reflexivity.
Qed.

Lemma push_bulk_returns s tok events ephemeral to_device otk fallback devices txn_id w :
  hs_token s = Some tok →
  ∃ result w',
    push_bulk quote reply serialize_event str_of_int s events ephemeral to_device
      otk fallback devices txn_id w = (Returned result, w').
Proof.
  intros Htok. destruct (url s) as [base|] eqn:Hurl.
  - destruct (push_bulk_request quote reply serialize_event str_of_int s base tok
                events ephemeral to_device otk fallback devices txn_id w Hurl Htok)
      as (? & result & w' & -> & _). eauto.
  - unfold push_bulk. rewrite Hurl. cbn. eauto.
Qed.

Lemma push_bulk_failure s base tok events ephemeral to_device otk fallback devices
    txn_id w :
  url s = Some base → hs_token s = Some tok →
  (∀ req, ∃ e, reply req = HttpErr e) →
  (push_bulk quote reply serialize_event str_of_int s events ephemeral to_device
     otk fallback devices txn_id w).1 = Returned false.
Proof.
  intros Hurl Htok Hfail. unfold push_bulk. rewrite Hurl.
  unfold bind at 1. rewrite (assert_hs_token_set _ _ _ Htok).
  unfold _serialize, put_json, send, outcome.
  destruct txn_id as [t|]; run_M;
    match goal with
    | |- context [reply ?r] => destruct (Hfail r) as [[code msg | cls] ->]
    end; reflexivity.
Qed.

(** [_get] never raises once it has its outcome; it only logs. *)
Lemma _get_end_returns s uri o w :
  ∃ v w', _get_end instance_id_string s uri o w = (Returned v, w')
          ∧ requests w' = requests w ∧ now w' = now w
          ∧ protocol_meta_cache w' = protocol_meta_cache w.
Proof.
  unfold _get_end, try_except, outcome.
  destruct o as [info | e]; run_M; [|eauto 10].
  destruct (_is_valid_3pe_metadata info) as [[|] | e]; cbn; eauto 10.
  destruct info; cbn; eauto 10.
  destruct (default (JList []) (m !! "instances")); cbn; eauto 10.
  destruct (add_instance_ids instance_id_string (id s) l); cbn; eauto 10.
Qed.

Lemma get_3pe_protocol_returns caller s tok protocol w :
  hs_token s = Some tok →
  ∃ p w', get_3pe_protocol quote caller s protocol w = (Returned p, w').
Proof.
  intros Htok. unfold get_3pe_protocol, _get_begin.
  destruct (url s) as [base|]; [|cbn; eauto]. run_M.
  destruct (cache_lookup (now w) (protocol_meta_cache w !! (id s, protocol)));
    cbn; eauto.
  rewrite (assert_hs_token_set _ _ _ Htok). cbn. eauto.
Qed.

End Failures.

Lemma valid_metadata_shape info :
  _is_valid_3pe_metadata info = Returned true →
  ∃ m l, info = JObj m ∧ m !! "instances" = Some (JList l).
Proof.
  unfold _is_valid_3pe_metadata.
  destruct info as [| | | | t | l | m]; cbn; try discriminate.
  - destruct (is_substring "instances" t); discriminate.
  - destruct (existsb _ l); discriminate.
  - destruct (m !! "instances") as [v|] eqn:Hv; cbn.
    + destruct v; try discriminate. eauto.
    + discriminate.
Qed.

(** ** The configuration invariant *)

Section Invariant.

Context (quote : string → string) (reply : request → http_outcome).
Context (serialize_event : EventBase → Z → SerializeEventConfig → json).
Context (str_of_int : Z → string).

(** C9. Every operation that goes to the network first asserts that
    [hs_token] is set.  On a service with a [url] and no [hs_token] each of
    them raises that [AssertionError] and issues no request ([query_3pe] at
    one of its two kinds; [_get], and with it [get_3pe_protocol] when the
    cache does not answer); and when [url] set implies [hs_token] set, none
    of them ever raises it. *)
Theorem hs_token_is_asserted (s : service) (w : world) :
  (url s ≠ None → hs_token s = None →
     (∀ user_id, query_user quote reply s user_id w = (Raised no_hs_token, w)) ∧
     (∀ alias, query_alias quote reply s alias w = (Raised no_hs_token, w)) ∧
     (∀ kind protocol fields, kind = USER ∨ kind = LOCATION →
        query_3pe quote reply s kind protocol fields w = (Raised no_hs_token, w)) ∧
     (∀ txn_id, ping reply s txn_id w = (Raised no_hs_token, w)) ∧
     (∀ events ephemeral to_device otk fallback devices txn_id,
        push_bulk quote reply serialize_event str_of_int s events ephemeral
          to_device otk fallback devices txn_id w = (Raised no_hs_token, w)) ∧
     (∀ query, claim_client_keys reply s query w = (Raised no_hs_token, w)) ∧
     (∀ protocol base, _get_begin quote s protocol base w = (Raised no_hs_token, w)) ∧
     (∀ caller protocol,
        cache_lookup (now w) (protocol_meta_cache w !! (id s, protocol)) = Miss →
        (get_3pe_protocol quote caller s protocol w).1 = Raised no_hs_token ∧
        requests (get_3pe_protocol quote caller s protocol w).2 = requests w)) ∧
  ((url s ≠ None → hs_token s ≠ None) →
     (∀ user_id, (query_user quote reply s user_id w).1 ≠ Raised no_hs_token) ∧
     (∀ alias, (query_alias quote reply s alias w).1 ≠ Raised no_hs_token) ∧
     (∀ kind protocol fields,
        (query_3pe quote reply s kind protocol fields w).1 ≠ Raised no_hs_token) ∧
     (∀ txn_id, (ping reply s txn_id w).1 ≠ Raised no_hs_token) ∧
     (∀ events ephemeral to_device otk fallback devices txn_id,
        (push_bulk quote reply serialize_event str_of_int s events ephemeral
           to_device otk fallback devices txn_id w).1 ≠ Raised no_hs_token) ∧
     (∀ query, (claim_client_keys reply s query w).1 ≠ Raised no_hs_token) ∧
     (∀ caller protocol,
        (get_3pe_protocol quote caller s protocol w).1 ≠ Raised no_hs_token)).
Proof.
  split.
  - intros Hurl Htok.
    destruct (url s) as [base|] eqn:Hbase; [clear Hurl | done].
    unfold query_user, query_alias, query_3pe, ping, push_bulk, claim_client_keys,
      get_3pe_protocol, _get_begin.
    rewrite Hbase. unfold bind.
    rewrite !(assert_hs_token_unset _ _ Htok).
    repeat split; try reflexivity.
    + intros kind protocol fields [-> | ->]; cbn;
        rewrite (assert_hs_token_unset _ _ Htok); reflexivity.
    + run_M. rewrite H. cbn. rewrite (assert_hs_token_unset _ _ Htok). reflexivity.
    + run_M. rewrite H. cbn. rewrite (assert_hs_token_unset _ _ Htok). reflexivity.
  - intros Hinv.
    destruct (url s) as [base|] eqn:Hbase.
    + destruct (hs_token s) as [tok|] eqn:Htok; [| by destruct Hinv].
      repeat split.
      * intros user_id.
        destruct (query_user_result quote reply s base tok user_id w Hbase Htok)
          as (w' & -> & _). discriminate.
      * intros alias.
        destruct (query_alias_result quote reply s base tok alias w Hbase Htok)
          as (w' & -> & _). discriminate.
      * intros kind protocol fields.
        destruct (decide (kind = USER ∨ kind = LOCATION)) as [Hkind | Hkind].
        -- destruct (query_3pe_returns quote reply s tok kind protocol fields w
                       Htok Hkind) as (l & w' & ->). discriminate.
        -- unfold query_3pe.
           destruct (String.eqb_spec kind USER); [tauto |].
           destruct (String.eqb_spec kind LOCATION); [tauto |]. discriminate.
      * intros txn_id. rewrite (ping_result reply s base tok txn_id w Hbase Htok).
        cbn. by destruct (reply _) as [? | [? ? | ?]].
      * intros events ephemeral to_device otk fallback devices txn_id.
        destruct (push_bulk_returns quote reply serialize_event str_of_int s tok
                    events ephemeral to_device otk fallback devices txn_id w Htok)
          as (r & w' & ->). discriminate.
      * intros query Hraise.
        apply claim_client_keys_raises in Hraise as [? | ?];
          [discriminate | discriminate | congruence].
      * intros caller protocol.
        destruct (get_3pe_protocol_returns quote caller s tok protocol w Htok)
          as (p & w' & ->). discriminate.
    + unfold query_user, query_alias, query_3pe, ping, push_bulk, claim_client_keys,
        get_3pe_protocol.
      rewrite Hbase. repeat split; try discriminate.
      intros kind protocol fields.
      destruct (String.eqb kind USER); [discriminate |].
      destruct (String.eqb kind LOCATION); discriminate.
Qed.

End Invariant.

Lemma hs_token_is_asserted_witness :
  let s := bridge None in
  let w := fresh_world [] in
  url s ≠ None ∧ hs_token s = None ∧
  query_user (λ x, x) (λ _, HttpOk (JObj ∅)) s "@u:example" w
  = (Raised no_hs_token, w) ∧
  (ping (λ _, HttpOk (JObj ∅)) (bridge (Some "secret")) None w).1
  ≠ Raised no_hs_token.
Proof.
  intros s w.
  split; [discriminate |]. split; [reflexivity |]. split.
  - apply (hs_token_is_asserted (λ x, x) (λ _, HttpOk (JObj ∅)) (λ e _ _, content e)
             (λ _, "0") s w); [discriminate | reflexivity].
  - apply (hs_token_is_asserted (λ x, x) (λ _, HttpOk (JObj ∅)) (λ e _ _, content e)
             (λ _, "0") (bridge (Some "secret")) w). discriminate.
Defined.

(** ** Liveness checks *)

Section Ping.

Context (quote : string → string) (reply : request → http_outcome).
Context (serialize_event : EventBase → Z → SerializeEventConfig → json).
Context (str_of_int : Z → string) (instance_id_string : string → json → string).

(** C7, as the code has it.  With [url] and [hs_token] set, [ping] POSTs
    the body [{"transaction_id": txn_id}] to
    [{url}/_matrix/app/unstable/fi.mau.msc2659/ping] and hands any failure of
    that call to its caller unchanged.  It is the only operation to do so:
    when the transport fails, each of the others returns its default, and a
    failed metadata call resumes every waiting caller with [None]. *)
Theorem ping_propagates_errors (s : service) (base tok : string) (w : world) :
  url s = Some base → hs_token s = Some tok →
  (∀ txn_id,
     let req := ping_request base tok txn_id in
     requests (ping reply s txn_id w).2 = requests w ++ [req] ∧
     (∀ body, reply req = HttpOk body → (ping reply s txn_id w).1 = Returned ()) ∧
     (∀ e, reply req = HttpErr e → (ping reply s txn_id w).1 = Raised (exn_of e))) ∧
  ((∀ req, ∃ e, reply req = HttpErr e) →
     (∀ user_id, (query_user quote reply s user_id w).1 = Returned false) ∧
     (∀ alias, (query_alias quote reply s alias w).1 = Returned false) ∧
     (∀ kind protocol fields, kind = USER ∨ kind = LOCATION →
        (query_3pe quote reply s kind protocol fields w).1 = Returned []) ∧
     (∀ events ephemeral to_device otk fallback devices txn_id,
        (push_bulk quote reply serialize_event str_of_int s events ephemeral
           to_device otk fallback devices txn_id w).1 = Returned false) ∧
     (∀ query, (claim_client_keys reply s query w).1 = Returned (JObj ∅, query))) ∧
  (∀ key owner uri waiters e,
     protocol_meta_cache w !! key = Some (Pending owner uri waiters) →
     (get_3pe_protocol_resume instance_id_string key (HttpErr e) w).1
     = Returned ((λ c, (c, None)) <$> waiters)).
Proof.
  intros Hurl Htok. split; [|split].
  - intros txn_id req. rewrite (ping_result reply s base tok txn_id w Hurl Htok).
    fold req. cbn [fst snd]. repeat split.
    + by intros body ->.
    + by intros e ->.
  - intros Hfail. repeat split.
    + intros user_id.
      destruct (query_user_result quote reply s base tok user_id w Hurl Htok)
        as (w' & -> & _).
      by destruct (Hfail (users_request quote base tok user_id)) as [e ->].
    + intros alias.
      destruct (query_alias_result quote reply s base tok alias w Hurl Htok)
        as (w' & -> & _).
      by destruct (Hfail (rooms_request quote base tok alias)) as [e ->].
    + intros kind protocol fields Hkind.
      destruct (Hfail (thirdparty_request quote base tok kind protocol fields))
        as [e He].
      exact (query_3pe_failure quote reply s base tok kind protocol fields e w
               Hurl Htok Hkind He).
    + intros. by apply (push_bulk_failure quote reply serialize_event str_of_int
                          s base tok).
    + intros query.
      destruct (Hfail (claim_request base tok (default [] (lists w !! query))))
        as [e He].
      by destruct (claim_client_keys_failure reply s base tok query e w Hurl Htok He)
        as (w' & -> & _).
  - intros key owner uri waiters e Hkey.
    unfold get_3pe_protocol_resume. run_M. rewrite Hkey. reflexivity.
Qed.

End Ping.

Lemma ping_propagates_errors_witness :
  let refused := λ _ : request, HttpErr (TransportFailure "ConnectionRefusedError") in
  let s := bridge (Some "secret") in
  let w := (get_3pe_protocol (λ x, x) 1 s "irc" (fresh_world [])).2 in
  (ping refused s (Some "txn1") w).1 = Raised (OtherException "ConnectionRefusedError") ∧
  (query_user (λ x, x) refused s "@u:example" w).1 = Returned false ∧
  (get_3pe_protocol_resume (λ _ _, "irc|net") ("irc", "irc")
     (HttpErr (HttpStatus 500 "Internal Server Error")) w).1
  = Returned [(1%nat, None)].
Proof.
  intros refused s w.
  destruct (ping_propagates_errors (λ x, x) refused (λ e _ _, content e) (λ _, "0")
              (λ _ _, "irc|net") s "https://bridge.example" "secret" w
              eq_refl eq_refl) as (Hping & Hothers & Hresume).
  split; [|split].
  - destruct (Hping (Some "txn1")) as (_ & _ & Herr).
    apply (Herr (TransportFailure "ConnectionRefusedError")). reflexivity.
  - destruct Hothers as (Huser & _).
    + intros req. by exists (TransportFailure "ConnectionRefusedError").
    + exact (Huser "@u:example").
  - apply (Hresume ("irc", "irc") s
             "https://bridge.example/_matrix/app/unstable/thirdparty/protocol/irc"
             [1%nat] (HttpStatus 500 "Internal Server Error")).
    vm_compute. reflexivity.
Defined.

(** Counterexample to C7 read with the endpoint
    [{url}/_matrix/app/unstable/msc2659/ping]: the one request [ping] issues
    goes to the path with the vendor prefix [fi.mau.]. *)
Lemma ping_endpoint_has_vendor_prefix :
  let w' := (ping (λ _, HttpOk (JObj ∅)) (bridge (Some "secret")) (Some "txn1")
               (fresh_world [])).2 in
  uri <$> requests w'
  = ["https://bridge.example/_matrix/app/unstable/fi.mau.msc2659/ping"] ∧
  ¬ ∃ req, req ∈ requests w' ∧
           uri req = "https://bridge.example" +:+ "/_matrix/app/unstable/msc2659/ping".
Proof.
  cbn. split; [reflexivity |].
  intros (req & Hin & Huri). apply list_elem_of_singleton in Hin. subst req.
  discriminate Huri.
Qed.

(** ** The protocol-metadata cache *)

Section Cache.

Context (quote : string → string) (instance_id_string : string → json → string).

Local Abbreviation take := (step quote instance_id_string).
Local Abbreviation play := (run quote instance_id_string).

(** A caller that is not answered at once is waiting on the entry of its
    key, and at most one request went out for it. *)
Lemma call_suspends s base protocol c w w1 :
  url s = Some base →
  take (Call c s protocol) w = ([], w1) →
  ∃ owner uri waiters,
    protocol_meta_cache w1 !! (id s, protocol) = Some (Pending owner uri waiters) ∧
    c ∈ waiters ∧ now w1 = now w ∧
    (requests w1 = requests w ∨ ∃ req, requests w1 = requests w ++ [req]).
Proof.
  intros Hurl. unfold step, get_3pe_protocol, _get_begin. rewrite Hurl. run_M.
  destruct (cache_lookup (now w) (protocol_meta_cache w !! (id s, protocol)))
    as [v | owner uri waiters |]; cbn.
  - discriminate.
  - intros [= <-]. exists owner, uri, (waiters ++ [c]). cbn.
    rewrite lookup_insert_eq. split; [done |].
    split; [apply elem_of_app; right; by apply list_elem_of_singleton |]. auto.
  - destruct (assert_hs_token s _) as [[tok | e] w0] eqn:Htok; cbn; [|discriminate].
    intros [= <-]. eexists s, _, [c]. cbn.
    rewrite lookup_insert_eq. split; [done |].
    split; [by apply list_elem_of_singleton |].
    unfold assert_hs_token in Htok. destruct (hs_token s); [|discriminate].
    injection Htok as <- <-. cbn. eauto.
Qed.

(** While a call is in flight, a further caller joins it: nothing is sent. *)
Lemma call_joins s base protocol c owner uri waiters w :
  url s = Some base →
  protocol_meta_cache w !! (id s, protocol) = Some (Pending owner uri waiters) →
  ∃ w1, take (Call c s protocol) w = ([], w1) ∧
        protocol_meta_cache w1 !! (id s, protocol)
        = Some (Pending owner uri (waiters ++ [c])) ∧
        requests w1 = requests w ∧ now w1 = now w.
Proof.
  intros Hurl Hkey. unfold step, get_3pe_protocol. rewrite Hurl. run_M.
  rewrite Hkey. cbn. eexists. split; [reflexivity |]. cbn.
  by rewrite lookup_insert_eq.
Qed.

(** When the call in flight completes, every waiter gets the same value,
    which is stored for an hour from now. *)
Lemma reply_resumes key o owner uri waiters w :
  protocol_meta_cache w !! key = Some (Pending owner uri waiters) →
  ∃ v w1, take (Reply key o) w = ((λ c, (c, Returned v)) <$> waiters, w1) ∧
          protocol_meta_cache w1
          = <[key := Completed v (now w + HOUR_IN_MS)]> (protocol_meta_cache w) ∧
          requests w1 = requests w ∧ now w1 = now w.
Proof.
  intros Hkey. unfold step, get_3pe_protocol_resume. run_M. rewrite Hkey.
  destruct (_get_end_returns instance_id_string owner uri o w)
    as (v & w0 & -> & Hreq & Hnow & Hcache).
  cbn. exists v. eexists. split.
  - rewrite <- list_fmap_compose. reflexivity.
  - cbn. by rewrite Hcache, Hnow, Hreq.
Qed.

Lemma tick_passes dt w : take (Tick dt) w = ([], with_now (λ t, t + dt) w).
Proof. reflexivity. Qed.

(** Past its expiry an entry no longer answers: the caller starts a call of
    its own. *)
Lemma call_after_expiry s base tok protocol c v expiry w :
  url s = Some base → hs_token s = Some tok →
  protocol_meta_cache w !! (id s, protocol) = Some (Completed v expiry) →
  expiry < now w →
  ∃ w1, take (Call c s protocol) w = ([], w1) ∧
        requests w1 = requests w ++ [protocol_request quote base tok protocol] ∧
        protocol_meta_cache w1 !! (id s, protocol)
        = Some (Pending s (uri (protocol_request quote base tok protocol)) [c]).
Proof.
  intros Hurl Htok Hkey Hlate. unfold step, get_3pe_protocol, _get_begin.
  rewrite Hurl. run_M. rewrite Hkey. cbn.
  destruct (Z.leb_spec (now w) expiry) as [Hle | _]; [lia |]. cbn.
  rewrite (assert_hs_token_set _ _ _ Htok). cbn.
  eexists. split; [reflexivity |]. cbn. by rewrite lookup_insert_eq.
Qed.

(** Up to its expiry an entry answers, and nothing is sent. *)
Lemma call_before_expiry s base protocol c v expiry w :
  url s = Some base →
  protocol_meta_cache w !! (id s, protocol) = Some (Completed v expiry) →
  now w ≤ expiry →
  take (Call c s protocol) w = ([(c, Returned v)], w).
Proof.
  intros Hurl Hkey Hlive. unfold step, get_3pe_protocol.
  rewrite Hurl. run_M. rewrite Hkey. cbn.
  destruct (Z.leb_spec (now w) expiry) as [_ | Hlt]; [|lia]. reflexivity.
Qed.

Lemma play_app evs1 evs2 w :
  play (evs1 ++ evs2) w
  = ((play evs1 w).1 ++ (play evs2 (play evs1 w).2).1, (play evs2 (play evs1 w).2).2).
Proof.
  revert w. induction evs1 as [|ev evs1 IH]; intros w; cbn [run app].
  - cbn. by destruct (play evs2 w).
  - destruct (take ev w) as [a w1]. rewrite IH.
    destruct (play evs1 w1) as [a1 w2]. cbn.
    destruct (play evs2 w2) as [a2 w3]. cbn. by rewrite app_assoc.
Qed.

(** However many callers join while the call is in flight, and whatever
    time passes, nothing is sent and nobody is answered: they all wait. *)
Lemma joiners_wait s base protocol evs :
  url s = Some base → Forall (waits_for s protocol) evs →
  ∀ w owner uri waiters,
    protocol_meta_cache w !! (id s, protocol) = Some (Pending owner uri waiters) →
    ∃ w1, play evs w = ([], w1) ∧
          protocol_meta_cache w1 !! (id s, protocol)
          = Some (Pending owner uri (waiters ++ callers evs)) ∧
          requests w1 = requests w.
Proof.
  intros Hurl Hevs. induction Hevs as [|ev evs Hev _ IH]; intros w owner uri waiters Hkey.
  - exists w. cbn. by rewrite app_nil_r.
  - destruct ev as [c s' protocol' | |dt]; cbn in Hev; [| done |].
    + destruct Hev as [-> ->].
      destruct (call_joins s base protocol c owner uri waiters w Hurl Hkey)
        as (w1 & E1 & Hkey1 & Hreq1 & _).
      destruct (IH w1 owner uri (waiters ++ [c]) Hkey1) as (w2 & E2 & Hkey2 & Hreq2).
      exists w2. cbn [run]. rewrite E1, E2. split; [done |].
      split; [| congruence]. by rewrite Hkey2, <- app_assoc.
    + destruct (IH (with_now (λ t, t + dt) w) owner uri waiters Hkey)
        as (w2 & E2 & Hkey2 & Hreq2).
      exists w2. cbn [run]. rewrite tick_passes, E2. by split.
Qed.

(** C8. Take a service with [url] and [hs_token] set and a protocol.
    (1) If a caller's call for the key is in flight, then whichever further
    callers ask for the same key before the answer arrives (a second one in
    particular), and whatever time passes meanwhile, at most one request has
    gone out when the answer arrives, and every answer handed out, to each
    of these callers among them, is the same value.  (2) Once a call has
    completed, a call made up to an hour later is answered with the stored
    value, without a request; a call made more than an hour later is not
    answered from the cache: a new request goes out and the caller waits
    for it. *)
Theorem single_flight_and_expiry (s : service) (base tok protocol : string) :
  url s = Some base → hs_token s = Some tok →
  let key := (id s, protocol) in
  (∀ w c1 evs o answers w',
     (take (Call c1 s protocol) w).1 = [] →
     Forall (waits_for s protocol) evs →
     play (Call c1 s protocol :: evs ++ [Reply key o]) w = (answers, w') →
     (requests w' = requests w ∨ ∃ req, requests w' = requests w ++ [req]) ∧
     ∃ v, (∀ c, c ∈ c1 :: callers evs → (c, Returned v) ∈ answers) ∧
          (∀ a, a ∈ answers → a.2 = Returned v)) ∧
  (∀ w owner pending_uri waiters o c dt answers w',
     protocol_meta_cache w !! key = Some (Pending owner pending_uri waiters) →
     play [Reply key o; Tick dt; Call c s protocol] w = (answers, w') →
     ∃ v,
       (dt ≤ HOUR_IN_MS →
          requests w' = requests w ∧
          answers = ((λ c, (c, Returned v)) <$> waiters) ++ [(c, Returned v)]) ∧
       (HOUR_IN_MS < dt →
          requests w' = requests w ++ [protocol_request quote base tok protocol] ∧
          answers = (λ c, (c, Returned v)) <$> waiters ∧
          protocol_meta_cache w' !! key
          = Some (Pending s (uri (protocol_request quote base tok protocol)) [c]))).
Proof.
  intros Hurl Htok key. split.
  - intros w c1 evs o answers w' Hfirst Hevs Hplay.
    destruct (take (Call c1 s protocol) w) as [a1 w1] eqn:E1.
    cbn in Hfirst. subst a1.
    destruct (call_suspends s base protocol c1 w w1 Hurl E1)
      as (owner & uri & waiters & Hkey1 & Hin1 & _ & Hreq1).
    destruct (joiners_wait s base protocol evs Hurl Hevs w1 owner uri waiters Hkey1)
      as (w2 & E2 & Hkey2 & Hreq2).
    destruct (reply_resumes key o owner uri (waiters ++ callers evs) w2 Hkey2)
      as (v & w3 & E3 & _ & Hreq3 & _).
    cbn [run] in Hplay. rewrite E1, play_app, E2 in Hplay. cbn [fst snd run] in Hplay.
    rewrite E3 in Hplay. cbn in Hplay. injection Hplay as <- <-. split.
    + rewrite Hreq3, Hreq2. exact Hreq1.
    + exists v. rewrite app_nil_r. split.
      * intros c Hc. apply list_elem_of_fmap. exists c. split; [done |].
        apply elem_of_app. apply elem_of_cons in Hc as [-> | Hc]; auto.
      * intros a Ha. apply list_elem_of_fmap in Ha as (c & -> & _). reflexivity.
  - intros w owner pending_uri waiters o c dt answers w' Hkey Hplay.
    destruct (reply_resumes key o owner pending_uri waiters w Hkey)
      as (v & w1 & E1 & Hcache1 & Hreq1 & Hnow1).
    exists v.
    cbn [run] in Hplay. rewrite E1, tick_passes in Hplay.
    assert (protocol_meta_cache (with_now (λ t, t + dt) w1) !! key
            = Some (Completed v (now w + HOUR_IN_MS))) as Hkey1.
    { cbn. rewrite Hcache1. apply lookup_insert_eq. }
    split.
    + intros Hdt.
      rewrite (call_before_expiry s base protocol c v _ _ Hurl Hkey1) in Hplay
        by (cbn; lia).
      cbn in Hplay. injection Hplay as <- <-. cbn. by rewrite Hreq1.
    + intros Hdt.
      destruct (call_after_expiry s base tok protocol c v _ _ Hurl Htok Hkey1)
        as (w2 & E2 & Hreq2 & Hkey2); [cbn; lia |].
      rewrite E2 in Hplay. cbn in Hplay. injection Hplay as <- <-.
      rewrite app_nil_r. split; [|split]; try done.
      rewrite Hreq2. cbn. by rewrite Hreq1.
Qed.

End Cache.

Lemma single_flight_and_expiry_witness :
  let s := bridge (Some "secret") in
  let key := ("irc", "irc") in
  let ask := protocol_request (λ x, x) "https://bridge.example" "secret" "irc" in
  let info : json := JObj {[ "instances" :=
                               JList [JObj {[ "network_id" := JStr "libera" ]}] ]} in
  let stored : json :=
    JObj {[ "instances" :=
              JList [JObj {[ "network_id" := JStr "libera";
                             "instance_id" := JStr "irc|libera" ]}] ]} in
  let answers := [(1%nat, Returned (Some stored)); (2%nat, Returned (Some stored))] in
  let meanwhile := [Tick 10; Call 2 s "irc"; Tick 20] in
  let together := Call 1 s "irc" :: meanwhile ++ [Reply key (HttpOk info)] in
  let in_flight := (step (λ x, x) (λ _ _, "irc|libera") (Call 1 s "irc")
                      (fresh_world [])).2 in
  let apart := [Reply key (HttpOk info); Tick 3600001; Call 2 s "irc"] in
  (* two callers, one call *)
  (step (λ x, x) (λ _ _, "irc|libera") (Call 1 s "irc") (fresh_world [])).1 = [] ∧
  run (λ x, x) (λ _ _, "irc|libera") together (fresh_world [])
  = (answers, (run (λ x, x) (λ _ _, "irc|libera") together (fresh_world [])).2) ∧
  requests (run (λ x, x) (λ _ _, "irc|libera") together (fresh_world [])).2 = [ask] ∧
  (∃ v, (∀ c, c ∈ 1%nat :: callers meanwhile → (c, Returned v) ∈ answers) ∧
        ∀ a, a ∈ answers → a.2 = Returned v) ∧
  (* the second caller comes more than an hour after the answer *)
  requests in_flight = [ask] ∧
  requests (run (λ x, x) (λ _ _, "irc|libera") apart in_flight).2 = [ask] ++ [ask].
Proof.
  intros s key ask info stored answers meanwhile together in_flight apart.
  destruct (single_flight_and_expiry (λ x, x) (λ _ _, "irc|libera") s
              "https://bridge.example" "secret" "irc" eq_refl eq_refl)
    as [Hflight Hexpiry].
  split; [reflexivity |]. split; [vm_compute; reflexivity |].
  split; [vm_compute; reflexivity |]. split.
  - apply (Hflight (fresh_world []) 1%nat meanwhile (HttpOk info) answers
             (run (λ x, x) (λ _ _, "irc|libera") together (fresh_world [])).2).
    + reflexivity.
    + repeat constructor.
    + vm_compute. reflexivity.
  - split; [reflexivity |].
    destruct (Hexpiry in_flight s (uri ask) [1%nat] (HttpOk info) 2%nat 3600001
                (run (λ x, x) (λ _ _, "irc|libera") apart in_flight).1
                (run (λ x, x) (λ _ _, "irc|libera") apart in_flight).2)
      as (v & _ & Hlate).
    + vm_compute. reflexivity.
    + vm_compute. reflexivity.
    + destruct Hlate as (Hreq & _); [reflexivity | exact Hreq].
Defined.

(** * Further properties *)

(** ** Protocol metadata *)

(** X3. [_is_valid_3pe_metadata] answers [True] exactly on a mapping whose
    ["instances"] is a list, and on a mapping it never raises. *)
Theorem metadata_validity :
  (∀ info, _is_valid_3pe_metadata info = Returned true
           ↔ ∃ m l, info = JObj m ∧ m !! "instances" = Some (JList l)) ∧
  (∀ m, ∃ b, _is_valid_3pe_metadata (JObj m) = Returned b).
Proof.
  split.
  - intros info. split; [apply valid_metadata_shape |].
    intros (m & l & -> & Hl). unfold _is_valid_3pe_metadata. cbn.
    rewrite Hl. by rewrite bool_decide_eq_true_2 by eauto.
  - intros m. unfold _is_valid_3pe_metadata. cbn.
    destruct (m !! "instances") as [v|]; cbn; eauto.
Qed.

Section Metadata.

Context (instance_id_string : string → json → string).

Lemma add_instance_ids_dicts service_id ims :
  add_instance_ids instance_id_string service_id (JObj <$> ims)
  = Returned (JObj <$> (tag_instance instance_id_string service_id <$> ims)).
Proof.
  induction ims as [|im ims IH]; [reflexivity |].
  cbn. rewrite IH. cbn. unfold tag_instance.
  destruct (im !! "network_id") as [n|]; cbn; [|reflexivity].
  by destruct (is_None n).
Qed.

Lemma add_instance_ids_not_dicts service_id l :
  (¬ ∃ ims, l = JObj <$> ims) →
  add_instance_ids instance_id_string service_id l = Raised AttributeError.
Proof.
  induction l as [|x l IH]; intros Hnot.
  - destruct Hnot. by exists [].
  - cbn. destruct x as [| | | | | |im]; try reflexivity. cbn.
    rewrite IH; [reflexivity |].
    intros [ims ->]. apply Hnot. by exists (im :: ims).
Qed.

(** X1. When the call answers a mapping whose ["instances"] is a list of
    mappings, [_get] returns that mapping with every instance that has a
    ["network_id"] other than [None] given the ["instance_id"] of the service
    id and that network id; the other instances, the order of the list and
    the other fields are as received, and nothing is logged. *)
Theorem _get_adds_instance_ids (s : service) (uri : string) (m : gmap string json)
    (ims : list (gmap string json)) (w : world) :
  m !! "instances" = Some (JList (JObj <$> ims)) →
  _get_end instance_id_string s uri (HttpOk (JObj m)) w
  = (Returned (Some (JObj (<["instances" :=
                               JList (JObj <$> (tag_instance instance_id_string (id s)
                                                  <$> ims))]> m))), w) ∧
  ∀ im,
    (im !! "network_id" = None ∨ im !! "network_id" = Some JNull →
       tag_instance instance_id_string (id s) im = im) ∧
    (∀ n, im !! "network_id" = Some n → n ≠ JNull →
       tag_instance instance_id_string (id s) im
       = <["instance_id" := JStr (instance_id_string (id s) n)]> im).
Proof.
  intros Hm. split.
  - unfold _get_end, _is_valid_3pe_metadata. run_M. rewrite Hm. cbn.
    by rewrite add_instance_ids_dicts.
  - intros im. unfold tag_instance. split.
    + by intros [-> | ->].
    + intros n -> Hn. by destruct n.
Qed.

(** X2. In every other case (the call failed, or its answer is not a
    mapping whose ["instances"] is a list of mappings) [_get] returns [None]
    and logs one warning about its URI; it never raises. *)
Theorem _get_fails_closed (s : service) (uri : string) (o : http_outcome) (w : world) :
  (¬ ∃ m ims, o = HttpOk (JObj m) ∧ m !! "instances" = Some (JList (JObj <$> ims))) →
  ∃ fmt, _get_end instance_id_string s uri o w
         = (Returned None,
            with_warnings (λ l, l ++ [{| template := fmt; about := uri |}]) w).
Proof.
  intros Hnot. unfold _get_end. destruct o as [info | e]; [|by eexists].
  run_M. destruct (_is_valid_3pe_metadata info) as [[|] | e] eqn:Hvalid; cbn;
    [| by eexists | by eexists].
  apply valid_metadata_shape in Hvalid as (m & l & -> & Hl). rewrite Hl. cbn.
  rewrite add_instance_ids_not_dicts; [by eexists |].
  intros [ims ->]. apply Hnot. by exists m, ims.
Qed.

End Metadata.

Lemma _get_adds_instance_ids_witness :
  let libera : gmap string json := {[ "network_id" := JStr "libera" ]} in
  let plain : gmap string json := {[ "desc" := JStr "no network" ]} in
  let m : gmap string json :=
    {[ "instances" := JList [JObj libera; JObj plain]; "icon" := JStr "mxc://x" ]} in
  (_get_end (λ sid _, sid +:+ "|libera") (bridge (Some "secret")) "uri"
     (HttpOk (JObj m)) (fresh_world [])).1
  = Returned (Some (JObj {[ "instances" :=
                              JList [JObj {[ "network_id" := JStr "libera";
                                             "instance_id" := JStr "irc|libera" ]};
                                     JObj plain];
                            "icon" := JStr "mxc://x" ]})).
Proof.
  intros libera plain m.
  destruct (_get_adds_instance_ids (λ sid _, sid +:+ "|libera") (bridge (Some "secret"))
              "uri" m [libera; plain] (fresh_world [])) as [-> _].
  - vm_compute. reflexivity.
  - vm_compute. reflexivity.
Defined.

Lemma _get_fails_closed_witness :
  ∃ fmt, _get_end (λ _ _, "irc|libera") (bridge (Some "secret")) "uri"
           (HttpOk (JObj {[ "instances" := JList [JStr "libera"] ]})) (fresh_world [])
         = (Returned None,
            with_warnings (λ l, l ++ [{| template := fmt; about := "uri" |}])
              (fresh_world [])).
Proof.
  apply (_get_fails_closed (λ _ _, "irc|libera")).
  intros (m & ims & [= <-] & Hims). vm_compute in Hims.
  destruct ims as [|im [|? ?]]; discriminate.
Defined.

(** ** Transactions, further *)

Section PushFurther.

Context (quote : string → string) (reply : request → http_outcome).
Context (serialize_event : EventBase → Z → SerializeEventConfig → json).
Context (str_of_int : Z → string).

Lemma wants_stripped_state_bool s e :
  String.eqb (type e) Member
  && (String.eqb (membership e) INVITE || String.eqb (membership e) KNOCK)
  && is_interested_in_user s (state_key e)
  = bool_decide (wants_stripped_state s e).
Proof.
  symmetry.
  destruct (String.eqb (type e) Member
            && (String.eqb (membership e) INVITE || String.eqb (membership e) KNOCK)
            && is_interested_in_user s (state_key e)) eqn:E.
  - apply bool_decide_eq_true.
    apply andb_true_iff in E as [E Hu]. apply andb_true_iff in E as [Ht Hm].
    apply orb_true_iff in Hm. rewrite !String.eqb_eq in Hm.
    apply String.eqb_eq in Ht. by split.
  - apply bool_decide_eq_false. intros (Ht & Hm & Hu).
    apply String.eqb_eq in Ht. rewrite Ht, Hu in E.
    destruct Hm as [Hm | Hm]; apply String.eqb_eq in Hm; rewrite Hm in E;
      [discriminate |]. by rewrite orb_true_r in E.
Qed.

Lemma _serialize_at s events w :
  _serialize serialize_event s events w
  = (Returned (serialized_at serialize_event s (now w) events), w).
Proof.
  unfold _serialize, serialized_at. run_M. f_equal. f_equal.
  apply map_ext. intros e. by rewrite wants_stripped_state_bool.
Qed.

(** All of [push_bulk], with [url] and [hs_token] set. *)
Lemma push_bulk_run s base tok events ephemeral to_device otk fallback devices txn_id w :
  url s = Some base → hs_token s = Some tok →
  let req := transaction_request quote serialize_event str_of_int s base tok events
               ephemeral to_device otk fallback devices txn_id (now w) in
  let w0 := match txn_id with
            | Some _ => w
            | None => with_warnings (λ l, l ++ [missing_txn_id base]) w
            end in
  let sent := with_requests (λ l, l ++ [req]) w0 in
  push_bulk quote reply serialize_event str_of_int s events ephemeral to_device
    otk fallback devices txn_id w
  = match reply req with
    | HttpOk _ =>
        (Returned true,
         with_metrics (inc_sent (id s) (Z.of_nat (length events))
                         (Z.of_nat (length ephemeral))
                         (Z.of_nat (length to_device))) sent)
    | HttpErr e =>
        (Returned false,
         with_metrics (inc_failed (id s))
           (with_warnings
              (λ l, l ++ [{| template :=
                               match e with
                               | HttpStatus _ _ =>
                                   "push_bulk to %s received code=%s msg=%s"
                               | TransportFailure _ =>
                                   "push_bulk to %s threw exception(%s) %s args=%s"
                               end;
                             about := uri req |}]) sent))
    end.
Proof.
  intros Hurl Htok req w0 sent. unfold push_bulk. rewrite Hurl.
  unfold bind at 1. rewrite (assert_hs_token_set _ _ _ Htok).
  unfold bind at 1. rewrite _serialize_at.
  assert (length (serialized_at serialize_event s (now w) events) = length events)
    as Hlen by apply length_map.
  subst sent w0 req. unfold transaction_request, put_json, send, outcome, missing_txn_id.
  destruct txn_id as [t|]; run_M;
    match goal with
    | |- context [reply ?r] => destruct (reply r) as [body | [code msg | cls]]
    end; cbn; rewrite ?Hlen; reflexivity.
Qed.

Lemma reading_inc label n c label' :
  reading (inc label n c) label'
  = if decide (label = label') then reading c label + n else reading c label'.
Proof.
  unfold reading, inc. rewrite lookup_insert. by case_decide; subst.
Qed.

(** X4. With [url] and [hs_token] set, [push_bulk] returns [True] exactly
    when its call succeeds.  On success the service's counters advance by
    one transaction sent and by the numbers of events, ephemeral events and
    to-device messages passed (whether or not the service supports
    ephemeral events); on failure only its failed-transactions counter
    advances, by one.  The counters of other services never move. *)
Theorem push_bulk_counts (s : service) (base tok : string) (events : list EventBase)
    (ephemeral to_device : list json) (otk fallback : gmap string json)
    (devices : DeviceListUpdates) (txn_id : option Z) (w : world) :
  url s = Some base → hs_token s = Some tok →
  let req := transaction_request quote serialize_event str_of_int s base tok events
               ephemeral to_device otk fallback devices txn_id (now w) in
  let after := push_bulk quote reply serialize_event str_of_int s events ephemeral
                 to_device otk fallback devices txn_id w in
  let '(sent, failed, evs, eph, dev) := readings (metrics w) (id s) in
  (∀ body, reply req = HttpOk body →
     after.1 = Returned true ∧
     readings (metrics after.2) (id s)
     = (sent + 1, failed, evs + Z.of_nat (length events),
        eph + Z.of_nat (length ephemeral), dev + Z.of_nat (length to_device))) ∧
  (∀ e, reply req = HttpErr e →
     after.1 = Returned false ∧
     readings (metrics after.2) (id s) = (sent, failed + 1, evs, eph, dev)) ∧
  (∀ other, other ≠ id s →
     readings (metrics after.2) other = readings (metrics w) other).
Proof.
  intros Hurl Htok req after.
  pose proof (push_bulk_run s base tok events ephemeral to_device otk fallback devices
                txn_id w Hurl Htok) as Hrun.
  cbv zeta in Hrun. fold req in Hrun. fold after in Hrun.
  unfold readings. split; [|split].
  - intros body Hbody. rewrite Hbody in Hrun. rewrite Hrun. cbn.
    split; [reflexivity |]. destruct txn_id; cbn;
      rewrite !reading_inc, !decide_True by done; reflexivity.
  - intros e He. rewrite He in Hrun. rewrite Hrun. cbn.
    split; [reflexivity |]. destruct txn_id; cbn;
      rewrite !reading_inc, !decide_True by done; reflexivity.
  - intros other Hother. rewrite Hrun.
    destruct (reply req) as [body | e]; destruct txn_id; cbn;
      rewrite ?reading_inc, ?decide_False by done; reflexivity.
Qed.

(** X5. A transaction pushed without an id is the transaction pushed with
    id [0], after one warning that the id is missing. *)
Theorem push_bulk_default_txn_id (s : service) (base tok : string)
    (events : list EventBase) (ephemeral to_device : list json)
    (otk fallback : gmap string json) (devices : DeviceListUpdates) (w : world) :
  url s = Some base → hs_token s = Some tok →
  push_bulk quote reply serialize_event str_of_int s events ephemeral to_device
    otk fallback devices None w
  = push_bulk quote reply serialize_event str_of_int s events ephemeral to_device
      otk fallback devices (Some 0)
      (with_warnings (λ l, l ++ [missing_txn_id base]) w).
Proof.
  intros Hurl Htok.
  rewrite (push_bulk_run s base tok events ephemeral to_device otk fallback devices
             None w Hurl Htok).
  rewrite (push_bulk_run s base tok events ephemeral to_device otk fallback devices
             (Some 0) _ Hurl Htok).
  reflexivity.
Qed.

(** The fields of the transaction body besides the ephemeral ones. *)
Lemma transaction_body_fields s serialized ephemeral to_device otk fallback devices :
  let body := transaction_body s serialized ephemeral to_device otk fallback devices in
  let ext (present : bool) (v : json) :=
    if msc3202_transaction_extensions s && present then Some v else None in
  body !! "events" = Some (JList serialized) ∧
  body !! "org.matrix.msc3202.device_one_time_key_counts"
  = ext (truthy_dict otk) (JObj otk) ∧
  body !! "org.matrix.msc3202.device_one_time_keys_count"
  = ext (truthy_dict otk) (JObj otk) ∧
  body !! "org.matrix.msc3202.device_unused_fallback_key_types"
  = ext (truthy_dict fallback) (JObj fallback) ∧
  body !! "org.matrix.msc3202.device_lists"
  = ext (truthy_device_lists devices)
      (JObj {[ "changed" := JList (JStr <$> changed devices);
               "left" := JList (JStr <$> left devices) ]}).
Proof.
  unfold transaction_body.
  destruct (supports_ephemeral s), (msc3202_transaction_extensions s),
    (truthy_dict otk), (truthy_dict fallback), (truthy_device_lists devices);
    cbn zeta; cbn [andb]; repeat split; by simplify_map_eq.
Qed.

(** X6. The body [push_bulk] sends carries the key-count, fallback-key and
    device-list fields only for a service with the MSC3202 extensions, and
    then each only when its argument is not empty: the one-time-key counts
    under both spellings of their field, the device lists as the two lists
    ["changed"] and ["left"]. *)
Theorem push_bulk_extension_fields (s : service) (base tok : string)
    (events : list EventBase) (ephemeral to_device : list json)
    (otk fallback : gmap string json) (devices : DeviceListUpdates)
    (txn_id : option Z) (w : world) :
  url s = Some base → hs_token s = Some tok →
  ∃ req body,
    requests (push_bulk quote reply serialize_event str_of_int s events ephemeral
                to_device otk fallback devices txn_id w).2
    = requests w ++ [req] ∧
    json_body req = Some (JObj body) ∧
    (msc3202_transaction_extensions s = false →
       body !! "org.matrix.msc3202.device_one_time_key_counts" = None ∧
       body !! "org.matrix.msc3202.device_one_time_keys_count" = None ∧
       body !! "org.matrix.msc3202.device_unused_fallback_key_types" = None ∧
       body !! "org.matrix.msc3202.device_lists" = None) ∧
    (msc3202_transaction_extensions s = true →
       body !! "org.matrix.msc3202.device_one_time_key_counts"
       = (if decide (otk = ∅) then None else Some (JObj otk)) ∧
       body !! "org.matrix.msc3202.device_one_time_keys_count"
       = (if decide (otk = ∅) then None else Some (JObj otk)) ∧
       body !! "org.matrix.msc3202.device_unused_fallback_key_types"
       = (if decide (fallback = ∅) then None else Some (JObj fallback)) ∧
       body !! "org.matrix.msc3202.device_lists"
       = (if decide (changed devices = [] ∧ left devices = []) then None
          else Some (JObj {[ "changed" := JList (JStr <$> changed devices);
                             "left" := JList (JStr <$> left devices) ]}))).
Proof.
  intros Hurl Htok.
  rewrite (push_bulk_run s base tok events ephemeral to_device otk fallback devices
             txn_id w Hurl Htok).
  exists (transaction_request quote serialize_event str_of_int s base tok events
            ephemeral to_device otk fallback devices txn_id (now w)),
    (transaction_body s (serialized_at serialize_event s (now w) events) ephemeral
       to_device otk fallback devices).
  split; [|split; [reflexivity |]].
  - destruct (reply _); destruct txn_id; reflexivity.
  - pose proof (transaction_body_fields s
                  (serialized_at serialize_event s (now w) events) ephemeral to_device
                  otk fallback devices) as (_ & H1 & H2 & H3 & H4).
    cbv zeta in H1, H2, H3, H4. rewrite H1, H2, H3, H4.
    split; intros ->; cbn [andb]; [done |].
    unfold truthy_dict, truthy_device_lists.
    repeat split.
    + by destruct (decide (otk = ∅)); [rewrite bool_decide_eq_true_2
                                      | rewrite bool_decide_eq_false_2].
    + by destruct (decide (otk = ∅)); [rewrite bool_decide_eq_true_2
                                      | rewrite bool_decide_eq_false_2].
    + by destruct (decide (fallback = ∅)); [rewrite bool_decide_eq_true_2
                                           | rewrite bool_decide_eq_false_2].
    + destruct (decide (changed devices = [])) as [Hc | Hc];
        destruct (decide (left devices = [])) as [Hl | Hl];
        [ rewrite !bool_decide_eq_true_2, decide_True by done
        | rewrite bool_decide_eq_true_2, bool_decide_eq_false_2, decide_False
            by tauto
        | rewrite bool_decide_eq_false_2, decide_False by tauto
        | rewrite bool_decide_eq_false_2, decide_False by tauto ]; done.
Qed.

(** X7. The ["events"] field of the body [push_bulk] sends holds one
    serialized event per event passed, in order, all rendered as client
    events at the one clock reading taken at the start of the push; the
    stripped room state is asked for exactly for the membership events
    [invite] and [knock] whose state key is a user the service is
    interested in. *)
Theorem push_bulk_serializes_events (s : service) (base tok : string)
    (events : list EventBase) (ephemeral to_device : list json)
    (otk fallback : gmap string json) (devices : DeviceListUpdates)
    (txn_id : option Z) (w : world) :
  url s = Some base → hs_token s = Some tok →
  ∃ req body serialized,
    requests (push_bulk quote reply serialize_event str_of_int s events ephemeral
                to_device otk fallback devices txn_id w).2
    = requests w ++ [req] ∧
    json_body req = Some (JObj body) ∧
    body !! "events" = Some (JList serialized) ∧
    length serialized = length events ∧
    ∀ i e, events !! i = Some e →
      ∃ config, serialized !! i = Some (serialize_event e (now w) config) ∧
                as_client_event config = true ∧
                (include_stripped_room_state config = true ↔ wants_stripped_state s e).
Proof.
  intros Hurl Htok.
  rewrite (push_bulk_run s base tok events ephemeral to_device otk fallback devices
             txn_id w Hurl Htok).
  exists (transaction_request quote serialize_event str_of_int s base tok events
            ephemeral to_device otk fallback devices txn_id (now w)),
    (transaction_body s (serialized_at serialize_event s (now w) events) ephemeral
       to_device otk fallback devices),
    (serialized_at serialize_event s (now w) events).
  split; [|split; [reflexivity |]].
  - destruct (reply _); destruct txn_id; reflexivity.
  - pose proof (transaction_body_fields s
                  (serialized_at serialize_event s (now w) events) ephemeral to_device
                  otk fallback devices) as (Hev & _).
    split; [exact Hev |]. unfold serialized_at. split; [apply length_map |].
    intros i e Hi. eexists. split.
    + change map with (@fmap list _). rewrite list_lookup_fmap, Hi. reflexivity.
    + split; [reflexivity |]. cbn. apply bool_decide_eq_true.
Qed.

End PushFurther.

Lemma push_bulk_counts_witness :
  (push_example (λ _, HttpOk (JObj ∅)) (Some 7) (fresh_world [])).1 = Returned true ∧
  readings (metrics (push_example (λ _, HttpOk (JObj ∅)) (Some 7) (fresh_world [])).2)
    "irc" = (1, 0, 1, 1, 1).
Proof.
  pose proof (push_bulk_counts (λ x, x) (λ _, HttpOk (JObj ∅)) (λ e _ _, content e)
                (λ _, "0") (bridge (Some "secret")) "https://bridge.example" "secret"
                [a_message] [JObj {[ "type" := JStr "m.typing" ]}]
                [JObj {[ "type" := JStr "m.room_key" ]}]
                {[ "@u1:example" :=
                     JObj {[ "d1" := JObj {[ "signed_curve25519" := JInt 5 ]} ]} ]}
                ∅ {| changed := []; left := [] |} (Some 7) (fresh_world [])
                eq_refl eq_refl) as H.
  cbv zeta in H. change (readings (metrics (fresh_world [])) (id (bridge (Some "secret"))))
    with (0, 0, 0, 0, 0) in H. cbv iota beta in H.
  destruct H as (Hok & _ & _). exact (Hok (JObj ∅) eq_refl).
Defined.

Lemma push_bulk_default_txn_id_witness :
  push_example (λ _, HttpOk (JObj ∅)) None (fresh_world [])
  = push_example (λ _, HttpOk (JObj ∅)) (Some 0)
      (with_warnings (λ l, l ++ [missing_txn_id "https://bridge.example"])
         (fresh_world [])).
Proof.
  unfold push_example.
  exact (push_bulk_default_txn_id (λ x, x) (λ _, HttpOk (JObj ∅)) (λ e _ _, content e)
           (λ _, "0") (bridge (Some "secret")) "https://bridge.example" "secret"
           [a_message] [JObj {[ "type" := JStr "m.typing" ]}]
           [JObj {[ "type" := JStr "m.room_key" ]}]
           {[ "@u1:example" :=
                JObj {[ "d1" := JObj {[ "signed_curve25519" := JInt 5 ]} ]} ]}
           ∅ {| changed := []; left := [] |} (fresh_world []) eq_refl eq_refl).
Defined.

Lemma push_bulk_extension_fields_witness :
  let otk : gmap string json :=
    {[ "@u1:example" := JObj {[ "d1" := JObj {[ "signed_curve25519" := JInt 5 ]} ]} ]} in
  ∃ req body,
    requests (push_example (λ _, HttpOk (JObj ∅)) (Some 7) (fresh_world [])).2 = [req] ∧
    json_body req = Some (JObj body) ∧
    body !! "org.matrix.msc3202.device_one_time_key_counts" = Some (JObj otk) ∧
    body !! "org.matrix.msc3202.device_one_time_keys_count" = Some (JObj otk) ∧
    body !! "org.matrix.msc3202.device_unused_fallback_key_types" = None ∧
    body !! "org.matrix.msc3202.device_lists" = None.
Proof.
  intros otk.
  destruct (push_bulk_extension_fields (λ x, x) (λ _, HttpOk (JObj ∅))
              (λ e _ _, content e) (λ _, "0") (bridge (Some "secret"))
              "https://bridge.example" "secret" [a_message]
              [JObj {[ "type" := JStr "m.typing" ]}]
              [JObj {[ "type" := JStr "m.room_key" ]}] otk ∅
              {| changed := []; left := [] |} (Some 7) (fresh_world [])
              eq_refl eq_refl) as (req & body & Hreq & Hbody & _ & Hon).
  exists req, body. split; [exact Hreq |]. split; [exact Hbody |].
  destruct (Hon eq_refl) as (H1 & H2 & H3 & H4).
  rewrite H1, H2, H3, H4. repeat split.
Defined.

Lemma push_bulk_serializes_events_witness :
  ∃ req body,
    requests (push_example (λ _, HttpOk (JObj ∅)) (Some 7) (fresh_world [])).2 = [req] ∧
    json_body req = Some (JObj body) ∧
    body !! "events" = Some (JList [JObj {[ "body" := JStr "hello" ]}]).
Proof.
  destruct (push_bulk_serializes_events (λ x, x) (λ _, HttpOk (JObj ∅))
              (λ e _ _, content e) (λ _, "0") (bridge (Some "secret"))
              "https://bridge.example" "secret" [a_message]
              [JObj {[ "type" := JStr "m.typing" ]}]
              [JObj {[ "type" := JStr "m.room_key" ]}]
              {[ "@u1:example" :=
                   JObj {[ "d1" := JObj {[ "signed_curve25519" := JInt 5 ]} ]} ]}
              ∅ {| changed := []; left := [] |} (Some 7) (fresh_world [])
              eq_refl eq_refl)
    as (req & body & serialized & Hreq & Hbody & Hevents & Hlen & Hat).
  exists req, body. split; [exact Hreq |]. split; [exact Hbody |].
  rewrite Hevents. destruct (Hat 0%nat a_message eq_refl) as (config & H0 & _).
  destruct serialized as [|x [|? ?]]; try discriminate.
  cbn in H0. by injection H0 as ->.
Defined.

(** ** Key claims, further *)

(** X8. The body of a key-claim request groups the query by user and by
    device: under [body[user][device]] are the algorithms of the triples for
    that user and device, in the order of the query, and there is an entry
    for a user or a device only when some triple names it. *)
Theorem claim_body_lookup (query : list claim) (user_id device : string) :
  (claim_body query !! user_id) ≫= (λ devices, devices !! device)
  = (if decide (algorithms_for query user_id device = []) then None
     else Some (algorithms_for query user_id device)) ∧
  (is_Some (claim_body query !! user_id) ↔ ∃ c, c ∈ query ∧ c.1.1 = user_id).
Proof.
  induction query as [|c query IH] using rev_ind.
  - cbn. split; [by rewrite lookup_empty |].
    rewrite lookup_empty. split; [by intros [? ?] | by intros (c & Hc%elem_of_nil & _)].
  - destruct IH as [IHd IHu]. destruct c as [[u d] a].
    unfold claim_body in *. rewrite foldl_snoc. unfold algorithms_for in *.
    rewrite omap_app. cbn [omap fst snd]. unfold add_claim at 1 3.
    set (body := foldl add_claim ∅ query) in *.
    set (algs := omap _ query) in *.
    split.
    + destruct (decide (u = user_id)) as [-> | Hu].
      * rewrite lookup_insert_eq. cbn.
        destruct (decide (d = device)) as [-> | Hd].
        -- rewrite lookup_insert_eq.
           rewrite (decide_True (P := user_id = user_id ∧ device = device)) by auto.
           cbn.
           rewrite decide_False by (by intros [? ?]%app_eq_nil).
           f_equal. f_equal.
           destruct (body !! user_id) as [devices|]; cbn in *.
           ++ destruct (decide (algs = [])) as [-> | ?]; by rewrite IHd.
           ++ destruct (decide (algs = [])) as [-> | ?]; [by rewrite lookup_empty | done].
        -- rewrite lookup_insert_ne by done.
           rewrite (decide_False (P := user_id = user_id ∧ d = device)) by tauto.
           cbn. rewrite app_nil_r.
           destruct (body !! user_id) as [devices|]; cbn in *; [done |].
           by rewrite lookup_empty.
      * rewrite lookup_insert_ne by done. cbn.
        rewrite (decide_False (P := u = user_id ∧ d = device)) by tauto.
        by rewrite app_nil_r.
    + destruct (decide (u = user_id)) as [-> | Hu].
      * rewrite lookup_insert_eq. split; [|by eauto].
        intros _. exists (user_id, d, a). split; [|done].
        apply elem_of_app. right. by apply list_elem_of_singleton.
      * rewrite lookup_insert_ne by done. rewrite IHu. split.
        -- intros (c & Hc & Hcu). exists c. split; [|done].
           apply elem_of_app. by left.
        -- intros (c & Hc & Hcu). apply elem_of_app in Hc as [Hc | Hc]; [by eauto |].
           apply list_elem_of_singleton in Hc. subst c. by destruct Hu.
Qed.

Lemma missing_claims_sublist response query missing :
  missing_claims response query = Returned missing → missing `sublist_of` query.
Proof.
  revert missing. induction query as [|c query IH]; intros missing; cbn [missing_claims].
  - intros [= <-]. constructor.
  - destruct (not_fulfilled response c) as [keep | e]; cbn; [|discriminate].
    destruct (missing_claims response query) as [tail | e]; cbn; [|discriminate].
    intros [= <-]. destruct keep; constructor; by apply IH.
Qed.

Lemma missing_claims_empty_response query :
  missing_claims (JObj ∅) query = Returned query.
Proof.
  induction query as [|[[u d] a] query IH]; [reflexivity |].
  cbn [missing_claims]. rewrite IH. cbn. by rewrite lookup_empty.
Qed.

Section ClaimsFurther.

Context (reply : request → http_outcome).

(** All of [claim_client_keys] when its call succeeds. *)
Lemma claim_client_keys_answered s base tok q response w :
  url s = Some base → hs_token s = Some tok →
  let query := default [] (lists w !! q) in
  let sent := with_requests (λ l, l ++ [claim_request base tok query]) w in
  reply (claim_request base tok query) = HttpOk response →
  claim_client_keys reply s q w
  = match missing_claims response query with
    | Returned missing =>
        (Returned (response, length (lists w)),
         with_lists (λ h, h ++ [missing]) sent)
    | Raised e => (Raised e, sent)
    end.
Proof.
  intros Hurl Htok query sent Hreply. unfold claim_client_keys. rewrite Hurl.
  unfold bind at 1. rewrite (assert_hs_token_set _ _ _ Htok).
  subst sent query. unfold claim_request, claim_body in *.
  unfold post_json_get_json, send, outcome, claim_body. run_M.
  rewrite Hreply. cbn. by destruct (missing_claims _ _).
Qed.

(** X9. A successful answer of the wrong shape is not absorbed.  When the
    query is not empty and the response is not a mapping, or its entry for
    the first user is not a mapping, [claim_client_keys] raises
    [AttributeError]; when the entry for the first user and device is
    neither a mapping, a list nor a string, it raises [TypeError].  The
    request has gone out and no list is created. *)
Theorem claim_client_keys_malformed_response (s : service) (base tok : string)
    (q : nat) (user_id device algorithm : string) (rest : list claim)
    (response : json) (w : world) :
  url s = Some base → hs_token s = Some tok →
  let query : list claim := (user_id, device, algorithm) :: rest in
  let sent := with_requests (λ l, l ++ [claim_request base tok query]) w in
  lists w !! q = Some query →
  reply (claim_request base tok query) = HttpOk response →
  (isinstance_dict response = false →
     claim_client_keys reply s q w = (Raised AttributeError, sent)) ∧
  (∀ m devices, response = JObj m → m !! user_id = Some devices →
     isinstance_dict devices = false →
     claim_client_keys reply s q w = (Raised AttributeError, sent)) ∧
  (∀ m dm keys, response = JObj m → m !! user_id = Some (JObj dm) →
     dm !! device = Some keys →
     isinstance_dict keys || isinstance_list keys || isinstance_str keys = false →
     claim_client_keys reply s q w = (Raised TypeError, sent)).
Proof.
  intros Hurl Htok query sent Hq Hreply.
  pose proof (claim_client_keys_answered s base tok q response w Hurl Htok) as Hrun.
  cbv zeta in Hrun. rewrite Hq in Hrun.
  change (default [] (Some query)) with query in Hrun.
  specialize (Hrun Hreply). fold sent in Hrun. rewrite Hrun.
  subst query. cbn [missing_claims not_fulfilled]. split; [|split].
  - intros Hshape. by destruct response.
  - intros m devices -> Hm Hshape. cbn. rewrite Hm. cbn. by destruct devices.
  - intros m dm keys -> Hm Hdm Hshape. cbn. rewrite Hm. cbn. rewrite Hdm. cbn.
    by destruct keys.
Qed.

(** X10. Whatever the service answers, when [claim_client_keys] returns, the
    list it hands back holds triples of the query, in the order of the
    query, and the query list itself is as it was.  For the answer [{}] the
    list handed back holds the whole query. *)
Theorem claim_client_keys_missing_is_sublist (s : service) (base tok : string)
    (q : nat) (query : list claim) (w : world) (response : json) (missing_ref : nat)
    (w' : world) :
  url s = Some base → hs_token s = Some tok →
  lists w !! q = Some query →
  claim_client_keys reply s q w = (Returned (response, missing_ref), w') →
  ∃ missing, lists w' !! missing_ref = Some missing ∧
             missing `sublist_of` query ∧
             lists w' !! q = Some query ∧
             (reply (claim_request base tok query) = HttpOk (JObj ∅) →
                missing = query).
Proof.
  intros Hurl Htok Hq Hcall.
  destruct (reply (claim_request base tok query)) as [body | e] eqn:Hreply.
  - pose proof (claim_client_keys_answered s base tok q body w Hurl Htok) as Hrun.
    cbv zeta in Hrun. rewrite Hq in Hrun.
    change (default [] (Some query)) with query in Hrun.
    specialize (Hrun Hreply). rewrite Hrun in Hcall.
    destruct (missing_claims body query) as [missing | e] eqn:Hm; [|discriminate].
    injection Hcall as <- <- <-. exists missing. cbn.
    split; [by rewrite lookup_app_r, Nat.sub_diag by done |].
    split; [by apply missing_claims_sublist in Hm |].
    split; [by apply lookup_app_l_Some |].
    intros [= ->]. rewrite missing_claims_empty_response in Hm. by injection Hm.
  - destruct (claim_client_keys_failure reply s base tok q e w Hurl Htok)
      as (w1 & Hrun & Hlists & _); [by rewrite Hq |].
    rewrite Hrun in Hcall. injection Hcall as <- <- <-.
    exists query. rewrite Hlists. by repeat split.
Qed.

End ClaimsFurther.

Lemma claim_client_keys_malformed_response_witness :
  claim_client_keys (λ _, HttpOk (JList [])) (bridge (Some "secret")) 0%nat
    (fresh_world [two_algorithms])
  = (Raised AttributeError,
     with_requests
       (λ l, l ++ [claim_request "https://bridge.example" "secret" two_algorithms])
       (fresh_world [two_algorithms])).
Proof.
  destruct (claim_client_keys_malformed_response (λ _, HttpOk (JList []))
              (bridge (Some "secret")) "https://bridge.example" "secret" 0%nat
              "@u1:example" "d1" "alg1" [("@u1:example", "d1", "alg2")] (JList [])
              (fresh_world [two_algorithms]) eq_refl eq_refl eq_refl eq_refl)
    as (Hshape & _).
  exact (Hshape eq_refl).
Defined.

Lemma claim_client_keys_missing_is_sublist_witness :
  ∃ missing,
    lists (claim_client_keys (λ _, HttpOk (JObj ∅)) (bridge (Some "secret")) 0%nat
             (fresh_world [two_algorithms])).2 !! 1%nat = Some missing ∧
    missing `sublist_of` two_algorithms ∧ missing = two_algorithms.
Proof.
  destruct (claim_client_keys_missing_is_sublist (λ _, HttpOk (JObj ∅))
              (bridge (Some "secret")) "https://bridge.example" "secret" 0%nat
              two_algorithms (fresh_world [two_algorithms]) (JObj ∅) 1%nat
              (claim_client_keys (λ _, HttpOk (JObj ∅)) (bridge (Some "secret")) 0%nat
                 (fresh_world [two_algorithms])).2 eq_refl eq_refl eq_refl)
    as (missing & Hat & Hsub & _ & Hall).
  - vm_compute. reflexivity.
  - exists missing. split; [exact Hat |]. split; [exact Hsub |]. by apply Hall.
Defined.

(** ** Third-party lookups, further *)

Section ThirdPartyFurther.

Context (quote : string → string) (reply : request → http_outcome).

Lemma collect_3pe_warnings uri field l : ∀ acc w,
  ∃ w', collect_3pe uri field l acc w
        = (Returned (acc ++ filter (valid_3pe_result field) l), w')
        ∧ requests w' = requests w
        ∧ warnings w'
          = warnings w
            ++ replicate (length (filter (λ r, ¬ valid_3pe_result field r) l))
                 {| template := "query_3pe to %s returned an invalid result %r";
                    about := uri |}.
Proof.
  induction l as [|r l IH]; intros acc w; cbn [collect_3pe].
  - exists w. by rewrite filter_nil, !app_nil_r.
  - rewrite !filter_cons. destruct (decide (valid_3pe_result field r)) as [Hv | Hv].
    + rewrite decide_False by tauto.
      apply _is_valid_3pe_result_true in Hv. rewrite Hv.
      destruct (IH (acc ++ [r]) w) as (w' & -> & Hreq & Hwarn).
      exists w'. split; [by rewrite <- app_assoc | done].
    + rewrite decide_True by done.
      destruct (_is_valid_3pe_result r field) eqn:E.
      { exfalso. by apply Hv, _is_valid_3pe_result_true. }
      run_M.
      match goal with
      | |- ∃ _, collect_3pe _ _ _ ?a ?w0 = _ ∧ _ =>
          destruct (IH a w0) as (w' & -> & Hreq & Hwarn)
      end.
      exists w'. split; [done |]. split; [done |].
      rewrite Hwarn. cbn. by rewrite <- app_assoc.
Qed.

(** All of [query_3pe], with [url] and [hs_token] set, at one of its two
    kinds. *)
Lemma query_3pe_cases s base tok kind field protocol fields w :
  url s = Some base → hs_token s = Some tok →
  (kind = USER ∧ field = "userid") ∨ (kind = LOCATION ∧ field = "alias") →
  let ask := thirdparty_request quote base tok kind protocol fields in
  ∃ w', query_3pe quote reply s kind protocol fields w
        = (Returned match reply ask with
                    | HttpOk (JList l) => filter (valid_3pe_result field) l
                    | _ => []
                    end, w')
        ∧ requests w' = requests w ++ [ask]
        ∧ warnings w'
          = warnings w
            ++ match reply ask with
               | HttpOk (JList l) =>
                   replicate (length (filter (λ r, ¬ valid_3pe_result field r) l))
                     {| template := "query_3pe to %s returned an invalid result %r";
                        about := uri ask |}
               | HttpOk _ =>
                   [{| template := "query_3pe to %s returned an invalid response %r";
                       about := uri ask |}]
               | HttpErr _ =>
                   [{| template := "query_3pe to %s threw exception %s";
                       about := uri ask |}]
               end.
Proof.
  intros Hurl Htok Hkind ask. unfold query_3pe. rewrite Hurl.
  unfold get_json, send, outcome. subst ask. unfold thirdparty_request.
  destruct Hkind as [[-> ->] | [-> ->]]; cbn [String.eqb]; unfold bind at 1; cbn;
    unfold bind at 1; rewrite (assert_hs_token_set _ _ _ Htok); run_M;
    match goal with
    | |- context [reply ?r] => destruct (reply r) as [body | e]
    end; cbn; eauto;
    destruct body; cbn; eauto;
    match goal with
    | |- context [collect_3pe ?u ?f ?l ?a ?w0] =>
        destruct (collect_3pe_warnings u f l a w0) as (w' & -> & Hreq & Hwarn)
    end; eauto.
Qed.

(** X11. The one request of [query_3pe] is a GET that carries the caller's
    fields as query arguments and the token of the service under
    ["access_token"], whatever the fields say under that name. *)
Theorem query_3pe_request (s : service) (base tok kind protocol : string)
    (fields : gmap string (list string)) (w : world) :
  url s = Some base → hs_token s = Some tok → kind = USER ∨ kind = LOCATION →
  ∃ req,
    requests (query_3pe quote reply s kind protocol fields w).2 = requests w ++ [req] ∧
    method req = GET ∧
    uri req = base +:+ APP_SERVICE_PREFIX +:+ "/thirdparty/" +:+ kind +:+ "/"
              +:+ quote protocol ∧
    args req !! "access_token" = Some (ArgStr tok) ∧
    (∀ k, k ≠ "access_token" → args req !! k = ArgList <$> fields !! k) ∧
    headers req = bearer tok.
Proof.
  intros Hurl Htok Hkind.
  assert (∃ field, (kind = USER ∧ field = "userid") ∨ (kind = LOCATION ∧ field = "alias"))
    as [field Hfield] by (destruct Hkind; eauto).
  destruct (query_3pe_cases s base tok kind field protocol fields w Hurl Htok Hfield)
    as (w' & -> & Hreq & _).
  exists (thirdparty_request quote base tok kind protocol fields).
  split; [exact Hreq |]. cbn. repeat split.
  - apply lookup_insert_eq.
  - intros k Hk. by rewrite lookup_insert_ne, lookup_fmap.
Qed.

(** X12. [query_3pe] logs one warning for each element it drops from the
    response list and nothing else; when the answer is not a list, or the
    call fails, it returns the empty list and logs one warning. *)
Theorem query_3pe_warnings (s : service) (base tok kind field protocol : string)
    (fields : gmap string (list string)) (w : world) :
  url s = Some base → hs_token s = Some tok →
  (kind = USER ∧ field = "userid") ∨ (kind = LOCATION ∧ field = "alias") →
  let ask := thirdparty_request quote base tok kind protocol fields in
  let after := query_3pe quote reply s kind protocol fields w in
  (∀ l, reply ask = HttpOk (JList l) →
     warnings after.2
     = warnings w
       ++ replicate (length (filter (λ r, ¬ valid_3pe_result field r) l))
            {| template := "query_3pe to %s returned an invalid result %r";
               about := uri ask |}) ∧
  (∀ body, reply ask = HttpOk body → isinstance_list body = false →
     after.1 = Returned [] ∧
     warnings after.2
     = warnings w ++ [{| template := "query_3pe to %s returned an invalid response %r";
                         about := uri ask |}]) ∧
  (∀ e, reply ask = HttpErr e →
     after.1 = Returned [] ∧
     warnings after.2
     = warnings w ++ [{| template := "query_3pe to %s threw exception %s";
                         about := uri ask |}]).
Proof.
  intros Hurl Htok Hkind ask after.
  destruct (query_3pe_cases s base tok kind field protocol fields w Hurl Htok Hkind)
    as (w' & Hrun & _ & Hwarn).
  fold ask in Hrun, Hwarn. subst after. rewrite Hrun. cbn [fst snd]. rewrite Hwarn.
  split; [|split].
  - by intros l ->.
  - intros body -> Hbody. by destruct body.
  - by intros e ->.
Qed.

(** X13. Whatever the service answers, every element [query_3pe] returns
    has the shape [_is_valid_3pe_result] checks, and the elements returned
    are elements of the response list, in its order. *)
Theorem query_3pe_returns_valid_results (s : service) (base tok kind field protocol : string)
    (fields : gmap string (list string)) (w : world) :
  url s = Some base → hs_token s = Some tok →
  (kind = USER ∧ field = "userid") ∨ (kind = LOCATION ∧ field = "alias") →
  ∃ results,
    (query_3pe quote reply s kind protocol fields w).1 = Returned results ∧
    Forall (valid_3pe_result field) results ∧
    (∀ r, r ∈ results → _is_valid_3pe_result r field = true) ∧
    (∀ l, reply (thirdparty_request quote base tok kind protocol fields)
          = HttpOk (JList l) → results `sublist_of` l).
Proof.
  intros Hurl Htok Hkind.
  destruct (query_3pe_cases s base tok kind field protocol fields w Hurl Htok Hkind)
    as (w' & Hrun & _).
  rewrite Hrun. eexists. split; [reflexivity |].
  destruct (reply _) as [[| | | | |l|] | e]; cbn;
    try (split; [constructor |]; split; [by intros r Hr%elem_of_nil |];
         intros; discriminate).
  split; [|split].
  - apply Forall_forall. intros r Hr. by apply list_elem_of_filter in Hr as [? _].
  - intros r Hr. apply list_elem_of_filter in Hr as [Hr _].
    by apply _is_valid_3pe_result_true.
  - intros l' [= <-]. apply sublist_filter.
Qed.

End ThirdPartyFurther.

Lemma query_3pe_request_witness :
  let fields : gmap string (list string) :=
    {[ "access_token" := ["stolen"]; "nick" := ["bob"] ]} in
  ∃ req,
    requests (query_3pe (λ x, x) (λ _, HttpOk (JList [])) (bridge (Some "secret"))
                "user" "irc" fields (fresh_world [])).2 = [req] ∧
    args req !! "access_token" = Some (ArgStr "secret") ∧
    args req !! "nick" = Some (ArgList ["bob"]).
Proof.
  intros fields.
  destruct (query_3pe_request (λ x, x) (λ _, HttpOk (JList [])) (bridge (Some "secret"))
              "https://bridge.example" "secret" "user" "irc" fields (fresh_world [])
              eq_refl eq_refl (or_introl eq_refl))
    as (req & Hreq & _ & _ & Htoken & Hfields & _).
  exists req. split; [exact Hreq |]. split; [exact Htoken |].
  rewrite Hfields by discriminate. reflexivity.
Defined.

Lemma query_3pe_warnings_witness :
  let good : json :=
    JObj {[ "alias" := JStr "#irc_room:example"; "protocol" := JStr "irc";
            "fields" := JObj ∅ ]} in
  length (warnings (query_3pe (λ x, x) (λ _, HttpOk (JList [JNull; good; JInt 3]))
                      (bridge (Some "secret")) "location" "irc" ∅
                      (fresh_world [])).2) = 2%nat.
Proof.
  intros good.
  destruct (query_3pe_warnings (λ x, x) (λ _, HttpOk (JList [JNull; good; JInt 3]))
              (bridge (Some "secret")) "https://bridge.example" "secret" "location"
              "alias" "irc" ∅ (fresh_world []) eq_refl eq_refl
              (or_intror (conj eq_refl eq_refl))) as (Hlist & _).
  rewrite (Hlist [JNull; good; JInt 3] eq_refl). vm_compute. reflexivity.
Defined.

Lemma query_3pe_returns_valid_results_witness :
  ∃ results,
    (query_3pe (λ x, x) (λ _, HttpErr (HttpStatus 500 "Internal Server Error"))
       (bridge (Some "secret")) "user" "irc" ∅ (fresh_world [])).1 = Returned results ∧
    Forall (valid_3pe_result "userid") results.
Proof.
  destruct (query_3pe_returns_valid_results (λ x, x)
              (λ _, HttpErr (HttpStatus 500 "Internal Server Error"))
              (bridge (Some "secret")) "https://bridge.example" "secret" "user" "userid"
              "irc" ∅ (fresh_world []) eq_refl eq_refl
              (or_introl (conj eq_refl eq_refl))) as (results & Hrun & Hvalid & _).
  by exists results.
Defined.

(** ** Existence queries, further *)

Section ExistenceFurther.

Context (quote : string → string) (reply : request → http_outcome).

(** All of [query_user] and of [query_alias], with [url] and [hs_token]
    set: the warnings they log. *)
Lemma query_user_warnings s base tok user_id w :
  url s = Some base → hs_token s = Some tok →
  let ask := users_request quote base tok user_id in
  warnings (query_user quote reply s user_id w).2
  = warnings w
    ++ match reply ask with
       | HttpOk _ => []
       | HttpErr (HttpStatus code _) =>
           if code =? 404 then []
           else [{| template := "query_user to %s received %s"; about := uri ask |}]
       | HttpErr (TransportFailure _) =>
           [{| template := "query_user to %s threw exception %s"; about := uri ask |}]
       end.
Proof.
  intros Hurl Htok ask. unfold query_user. rewrite Hurl.
  unfold bind at 1. rewrite (assert_hs_token_set _ _ _ Htok).
  unfold get_json, send, outcome. fold (users_request quote base tok user_id).
  fold ask. destruct (reply ask) as [body | [code msg | cls]]; run_M.
  - destruct body; cbn; by rewrite app_nil_r.
  - destruct (code =? 404); cbn; [by rewrite app_nil_r | done].
  - done.
Qed.

Lemma query_alias_warnings s base tok alias w :
  url s = Some base → hs_token s = Some tok →
  let ask := rooms_request quote base tok alias in
  warnings (query_alias quote reply s alias w).2
  = warnings w
    ++ match reply ask with
       | HttpOk _ => []
       | HttpErr (HttpStatus _ _) =>
           [{| template := "query_alias to %s received %s"; about := uri ask |}]
       | HttpErr (TransportFailure _) =>
           [{| template := "query_alias to %s threw exception %s"; about := uri ask |}]
       end.
Proof.
  intros Hurl Htok ask. unfold query_alias. rewrite Hurl.
  unfold bind at 1. rewrite (assert_hs_token_set _ _ _ Htok).
  unfold get_json, send, outcome. fold (rooms_request quote base tok alias).
  fold ask. destruct (reply ask) as [body | [code msg | cls]]; run_M.
  - destruct body; cbn; by rewrite app_nil_r.
  - by destruct (code =? 404).
  - done.
Qed.

(** X14. Neither existence query logs anything when its call succeeds, and
    each logs one warning when the call fails, with one exception: a 404 is
    silent for [query_user], while [query_alias] logs it like any other
    status. *)
Theorem existence_queries_log (s : service) (base tok name : string) (w : world) :
  url s = Some base → hs_token s = Some tok →
  let ask_user := users_request quote base tok name in
  let ask_room := rooms_request quote base tok name in
  let user_log := warnings (query_user quote reply s name w).2 in
  let room_log := warnings (query_alias quote reply s name w).2 in
  ((∀ body, reply ask_user = HttpOk body → user_log = warnings w) ∧
   (∀ msg, reply ask_user = HttpErr (HttpStatus 404 msg) → user_log = warnings w) ∧
   (∀ e, reply ask_user = HttpErr e → (∀ msg, e ≠ HttpStatus 404 msg) →
      ∃ entry, user_log = warnings w ++ [entry] ∧ about entry = uri ask_user)) ∧
  ((∀ body, reply ask_room = HttpOk body → room_log = warnings w) ∧
   (∀ e, reply ask_room = HttpErr e →
      ∃ entry, room_log = warnings w ++ [entry] ∧ about entry = uri ask_room)).
Proof.
  intros Hurl Htok ask_user ask_room user_log room_log.
  subst user_log room_log.
  rewrite (query_user_warnings s base tok name w Hurl Htok).
  rewrite (query_alias_warnings s base tok name w Hurl Htok).
  fold ask_user ask_room. split; [split; [|split] | split].
  - intros body ->. by rewrite app_nil_r.
  - intros msg ->. by rewrite app_nil_r.
  - intros e -> Hnot. destruct e as [code msg | cls]; [|by eexists].
    destruct (Z.eqb_spec code 404) as [-> | _]; [by destruct (Hnot msg) | by eexists].
  - intros body ->. by rewrite app_nil_r.
  - intros e ->. destruct e; by eexists.
Qed.

End ExistenceFurther.

Lemma existence_queries_log_witness :
  let s := bridge (Some "secret") in
  let not_found := λ _ : request, HttpErr (HttpStatus 404 "Not found") in
  warnings (query_user (λ x, x) not_found s "@u:example" (fresh_world [])).2 = [] ∧
  ∃ entry,
    warnings (query_alias (λ x, x) not_found s "#room:example" (fresh_world [])).2
    = [entry].
Proof.
  intros s not_found. split.
  - pose proof (existence_queries_log (λ x, x) not_found s "https://bridge.example"
                  "secret" "@u:example" (fresh_world []) eq_refl eq_refl) as H.
    cbv zeta in H. destruct H as [(_ & H & _) _]. exact (H "Not found" eq_refl).
  - pose proof (existence_queries_log (λ x, x) not_found s "https://bridge.example"
                  "secret" "#room:example" (fresh_world []) eq_refl eq_refl) as H.
    cbv zeta in H. destruct H as [_ (_ & H)].
    destruct (H (HttpStatus 404 "Not found") eq_refl) as (entry & Hlog & _).
    by exists entry.
Defined.

(** ** Authentication of the requests *)

Section Authentication.

Context (quote : string → string) (reply : request → http_outcome).
Context (serialize_event : EventBase → Z → SerializeEventConfig → json).
Context (str_of_int : Z → string).

Lemma claim_client_keys_sends s base tok q w :
  url s = Some base → hs_token s = Some tok →
  requests (claim_client_keys reply s q w).2
  = requests w ++ [claim_request base tok (default [] (lists w !! q))].
Proof.
  intros Hurl Htok. unfold claim_client_keys. rewrite Hurl.
  unfold bind at 1. rewrite (assert_hs_token_set _ _ _ Htok).
  unfold claim_request, claim_body.
  unfold post_json_get_json, send, outcome, claim_body. run_M.
  match goal with
  | |- context [reply ?r] => destruct (reply r) as [body | [code msg | cls]]
  end; cbn.
  - by destruct (missing_claims _ _).
  - by destruct ((code =? 404) || (code =? 405)).
  - done.
Qed.

Lemma get_3pe_protocol_sends caller s base tok protocol w :
  url s = Some base → hs_token s = Some tok →
  requests (get_3pe_protocol quote caller s protocol w).2 = requests w ∨
  requests (get_3pe_protocol quote caller s protocol w).2
  = requests w ++ [protocol_request quote base tok protocol].
Proof.
  intros Hurl Htok. unfold get_3pe_protocol, _get_begin. rewrite Hurl. run_M.
  destruct (cache_lookup (now w) (protocol_meta_cache w !! (id s, protocol)));
    cbn; auto.
  rewrite (assert_hs_token_set _ _ _ Htok). cbn. auto.
Qed.

(** X15. With [url] and [hs_token] set, a call of an operation puts exactly
    one request on the wire ([get_3pe_protocol]: at most one), whatever the
    answer, and every request carries the header [Authorization: Bearer]
    with the token of the service.  The GET and PUT requests carry the token
    as the query argument ["access_token"] too; the two POST requests, of
    [ping] and of [claim_client_keys], have no query arguments. *)
Theorem every_request_is_authenticated (s : service) (base tok : string) (w : world) :
  url s = Some base → hs_token s = Some tok →
  let authorization : gmap string (list string) :=
    {[ "Authorization" := ["Bearer " +:+ tok] ]} in
  let in_query : gmap string arg_value := {[ "access_token" := ArgStr tok ]} in
  (∀ user_id, ∃ req,
     requests (query_user quote reply s user_id w).2 = requests w ++ [req] ∧
     method req = GET ∧ headers req = authorization ∧ args req = in_query) ∧
  (∀ alias, ∃ req,
     requests (query_alias quote reply s alias w).2 = requests w ++ [req] ∧
     method req = GET ∧ headers req = authorization ∧ args req = in_query) ∧
  (∀ kind protocol fields, kind = USER ∨ kind = LOCATION → ∃ req,
     requests (query_3pe quote reply s kind protocol fields w).2 = requests w ++ [req] ∧
     method req = GET ∧ headers req = authorization ∧
     args req !! "access_token" = Some (ArgStr tok)) ∧
  (∀ events ephemeral to_device otk fallback devices txn_id, ∃ req,
     requests (push_bulk quote reply serialize_event str_of_int s events ephemeral
                 to_device otk fallback devices txn_id w).2 = requests w ++ [req] ∧
     method req = PUT ∧ headers req = authorization ∧ args req = in_query) ∧
  (∀ txn_id, ∃ req,
     requests (ping reply s txn_id w).2 = requests w ++ [req] ∧
     method req = POST ∧ headers req = authorization ∧ args req = ∅) ∧
  (∀ query, ∃ req,
     requests (claim_client_keys reply s query w).2 = requests w ++ [req] ∧
     method req = POST ∧ headers req = authorization ∧ args req = ∅) ∧
  (∀ caller protocol,
     requests (get_3pe_protocol quote caller s protocol w).2 = requests w ∨
     ∃ req,
       requests (get_3pe_protocol quote caller s protocol w).2 = requests w ++ [req] ∧
       method req = GET ∧ headers req = authorization ∧ args req = in_query).
Proof.
  intros Hurl Htok authorization in_query. repeat split.
  - intros user_id.
    destruct (query_user_result quote reply s base tok user_id w Hurl Htok)
      as (w' & -> & Hreq).
    by exists (users_request quote base tok user_id).
  - intros alias.
    destruct (query_alias_result quote reply s base tok alias w Hurl Htok)
      as (w' & -> & Hreq).
    by exists (rooms_request quote base tok alias).
  - intros kind protocol fields Hkind.
    assert (∃ field, (kind = USER ∧ field = "userid")
                     ∨ (kind = LOCATION ∧ field = "alias"))
      as [field Hfield] by (destruct Hkind; eauto).
    destruct (query_3pe_cases quote reply s base tok kind field protocol fields w
                Hurl Htok Hfield) as (w' & -> & Hreq & _).
    exists (thirdparty_request quote base tok kind protocol fields).
    repeat split; [exact Hreq |]. apply lookup_insert_eq.
  - intros events ephemeral to_device otk fallback devices txn_id.
    rewrite (push_bulk_run quote reply serialize_event str_of_int s base tok events
               ephemeral to_device otk fallback devices txn_id w Hurl Htok).
    exists (transaction_request quote serialize_event str_of_int s base tok events
              ephemeral to_device otk fallback devices txn_id (now w)).
    repeat split. destruct (reply _); destruct txn_id; reflexivity.
  - intros txn_id. rewrite (ping_result reply s base tok txn_id w Hurl Htok).
    by exists (ping_request base tok txn_id).
  - intros query. rewrite (claim_client_keys_sends s base tok query w Hurl Htok).
    by eexists.
  - intros caller protocol.
    destruct (get_3pe_protocol_sends caller s base tok protocol w Hurl Htok)
      as [-> | ->]; [by left | right].
    by exists (protocol_request quote base tok protocol).
Qed.

End Authentication.

Lemma every_request_is_authenticated_witness :
  let s := bridge (Some "secret") in
  ∃ req,
    requests (ping (λ _, HttpErr (HttpStatus 503 "Service Unavailable")) s None
                (fresh_world [])).2 = [req] ∧
    headers req = {[ "Authorization" := ["Bearer secret"] ]} ∧ args req = ∅.
Proof.
  intros s.
  pose proof (every_request_is_authenticated (λ x, x)
                (λ _, HttpErr (HttpStatus 503 "Service Unavailable"))
                (λ e _ _, content e) (λ _, "0") s "https://bridge.example" "secret"
                (fresh_world []) eq_refl eq_refl) as H.
  cbv zeta in H. destruct H as (_ & _ & _ & _ & Hping & _).
  destruct (Hping None) as (req & Hreq & _ & Hheaders & Hargs).
  by exists req.
Defined.
